(** * Structural landscape analysis: dispersion index and MDS pipeline

    A shallow embedding of [Structural_Landscape_Analysis_MDS.py]:
    [calculate_dispersion] and [run_mds_analysis].

    Numbers.  numpy's float64 is idealised: a finite value is a real number
    (no rounding, no overflow) and NaN is kept as a value of its own, because
    pandas reductions treat it specially (an empty mean is NaN, sums skip it).

    Libraries.  pandas' CSV reader, scikit-learn's MDS and the plotting calls
    are not part of the repository.  Their behaviour is an input of the
    model: a [World] says what each read finds, a [Libraries] record says
    what each call returns or raises.

    Further scripts.  After the pipeline come the functions of the other
    scripts that stand on their own: [get_loop_length],
    [classify_architecture] and the loop of [main] of
    [architectural_loop_classifier.py]; [detect_cleavage_sites] and the
    feature step of [linker_cleavage_GLM_analysis.py]; [predict_structure]
    and [main] of [Structural_Prediction_ESMFold.py], over a network and a
    disk given as inputs; [build_network] of [Network_Topology_Analysis.py];
    [calculate_metrics] of [Phyletic_Spread_&_Depth.py].  Table cells are
    strings, or missing where pandas would hold NaN. *)

From Stdlib Require Import Reals Lra Lia List String Ascii Bool ZArith Permutation.
Import ListNotations.

Local Open Scope R_scope.

(** ** numpy / pandas numerics *)

Inductive float64 : Type :=
| NaN
| Num (r : R).

(** Sum of a list of finite values. *)
Definition Rsum (l : list R) : R := fold_right Rplus 0 l.

Module np.

(** Element-wise [a - b]. *)
Definition sub (a b : float64) : float64 :=
  match a, b with
  | Num x, Num y => Num (x - y)
  | _, _ => NaN
  end.

(** [a ** 2]. *)
Definition square (a : float64) : float64 :=
  match a with
  | Num x => Num (x ^ 2)
  | NaN => NaN
  end.

(** [np.sqrt]: NaN on a negative argument. *)
Definition sqrt (a : float64) : float64 :=
  match a with
  | Num x => if Rlt_dec x 0 then NaN else Num (R_sqrt.sqrt x)
  | NaN => NaN
  end.

End np.

Module pd.

(** The values a reduction keeps ([skipna=True]). *)
Fixpoint dropna (l : list float64) : list R :=
  match l with
  | [] => []
  | NaN :: t => dropna t
  | Num x :: t => x :: dropna t
  end.

(** [.sum(axis=1)] over the cells of one row: NaN cells are skipped and an
    all-NaN row sums to 0. *)
Definition sum (cells : list float64) : float64 := Num (Rsum (dropna cells)).

(** [.mean()]: NaN when nothing is left to average. *)
Definition mean (values : list float64) : float64 :=
  match dropna values with
  | [] => NaN
  | v => Num (Rsum v / INR (List.length v))
  end.

End pd.

(** ** Data frames *)

(** A row of the merged coordinate table: the two embedding coordinates and
    the metadata columns the script reads. *)
Record Row : Type := mkRow {
  Dim1 : R;
  Dim2 : R;
  Sequence_ID : string;
  Lineage : string
}.

Definition DataFrame := list Row.

(** [coords_df[coords_df['Lineage'] == lineage_name]] *)
Definition select_lineage (coords_df : DataFrame) (lineage_name : string) : DataFrame :=
  filter (fun r => String.eqb (Lineage r) lineage_name) coords_df.

(** [subset.empty] *)
Definition empty (subset : DataFrame) : bool :=
  match subset with
  | [] => true
  | _ :: _ => false
  end.

(** ** calculate_dispersion *)

Definition calculate_dispersion (coords_df : DataFrame) (lineage_name : string) : float64 :=
  let subset := select_lineage coords_df lineage_name in
  if empty subset then Num 0
  else
    let centroid := (pd.mean (map (fun r => Num (Dim1 r)) subset),
                     pd.mean (map (fun r => Num (Dim2 r)) subset)) in
    let distances :=
      map (fun r => np.sqrt (pd.sum [np.square (np.sub (Num (Dim1 r)) (fst centroid));
                                     np.square (np.sub (Num (Dim2 r)) (snd centroid))]))
          subset in
    pd.mean distances.

(** ** The dispersion index in the words of the specification *)

Definition point := (R * R)%type.

(** Member coordinates of a category: the points of the rows whose label is
    the category, in the order of the table. *)
Fixpoint members (coords_df : DataFrame) (lineage_name : string) : list point :=
  match coords_df with
  | [] => []
  | r :: rest =>
      if string_dec (Lineage r) lineage_name
      then (Dim1 r, Dim2 r) :: members rest lineage_name
      else members rest lineage_name
  end.

Definition arithmetic_mean (l : list R) : R := Rsum l / INR (List.length l).

(** Centroid: arithmetic mean of the member coordinates. *)
Definition centroid_of (pts : list point) : point :=
  (arithmetic_mean (map fst pts), arithmetic_mean (map snd pts)).

Definition euclidean_distance (p q : point) : R :=
  R_sqrt.sqrt (Rsqr (fst p - fst q) + Rsqr (snd p - snd q)).

(** Mean Euclidean distance of the points to their centroid. *)
Definition mean_distance_to_centroid (pts : list point) : R :=
  arithmetic_mean (map (fun p => euclidean_distance p (centroid_of pts)) pts).

(** ** Exceptions, results and visible effects *)

Inductive exn : Type :=
| FileNotFoundError
| ValueError
| OtherError (cls : string).   (* an exception of any other class *)

Inductive result (A : Type) : Type :=
| Ok (a : A)
| Raise (e : exn).

Arguments Ok {A} a.
Arguments Raise {A} e.

(** A cell of the RMSD table: a finite number, or nan / inf / -inf. *)
Inductive entry : Type :=
| Finite (r : R)
| NonFinite.

(** The RMSD table as [pd.read_csv(..., index_col=0)] returns it: the first
    column became the row labels, the remaining cells are the matrix. *)
Record RmsdFrame : Type := mkRmsd {
  index : list string;
  values : list (list entry)
}.

(** A row of the metadata table (columns 'Sequence_ID' and 'Lineage'). *)
Record MetaRow : Type := mkMeta {
  meta_Sequence_ID : string;
  meta_Lineage : string
}.

Definition Metadata := list MetaRow.

(** A row of the coordinate table before the merge: the label taken from
    [rmsd_df.index] and the columns 'Dim1', 'Dim2'. *)
Record CoordRow : Type := mkCoord {
  label : string;
  coord1 : R;
  coord2 : R
}.

(** Parameters given to the constructor [MDS(...)]. *)
Record MDS : Type := mkMDS {
  n_components : nat;
  dissimilarity : string;
  random_state : option Z;
  n_init : nat
}.

(** What a run does that can be seen from outside, in order. *)
Inductive event : Type :=
| Print (line : string)
| PrintIndex (prefix : string) (value : float64)   (* f"{prefix}{value:.2f}" *)
| FitTransform (mds : MDS) (X : RmsdFrame)         (* call into scikit-learn *)
| Draw (data : DataFrame)                          (* figure, kdeplot, scatterplot, labels *)
| Savefig (path : string).

(** ** The world outside the script *)

Inductive file_state (T : Type) : Type :=
| Missing                      (* no such file *)
| Unreadable (cls : string)    (* present, but the reader raises [cls] *)
| Holds (content : T).

Arguments Missing {T}.
Arguments Unreadable {T} cls.
Arguments Holds {T} content.

(** State of a pseudo-random generator. *)
Definition rng_state := list Z.

Record World : Type := mkWorld {
  matrix_files : string -> file_state RmsdFrame;   (* seen by read_csv(path, index_col=0) *)
  table_files : string -> file_state Metadata;     (* seen by read_csv(path) *)
  np_random : rng_state                            (* numpy's process-wide generator *)
}.

(** Behaviour of the calls into scikit-learn and matplotlib/seaborn. *)
Record Libraries : Type := mkLibraries {
  RandomState : Z -> rng_state;                    (* generator seeded with an integer *)
  smacof : rng_state -> MDS -> RmsdFrame -> result (list (list R));
  draw_figure : DataFrame -> result unit;
  write_figure : string -> result unit
}.

(** ** A monad for logging and exceptions *)

Definition M (A : Type) : Type := (list event * result A)%type.

Definition ret {A : Type} (a : A) : M A := ([], Ok a).

Definition bind {A B : Type} (m : M A) (k : A -> M B) : M B :=
  match m with
  | (l, Ok a) => let (l', r) := k a in (l ++ l', r)
  | (l, Raise e) => (l, Raise e)
  end.

Declare Scope script_scope.
Delimit Scope script_scope with script.
Notation "x <- m ;; k" := (bind m (fun x => k))
  (at level 61, m at next level, right associativity) : script_scope.
Notation "m ;; k" := (bind m (fun _ => k))
  (at level 61, right associativity) : script_scope.

Definition emit (ev : event) : M unit := ([ev], Ok tt).

Definition print (line : string) : M unit := emit (Print line).

Definition lift {A : Type} (r : result A) : M A := ([], r).

(** [try: body / except FileNotFoundError: handler] *)
Definition try_except_FileNotFoundError {A : Type} (body handler : M A) : M A :=
  match body with
  | (l, Raise FileNotFoundError) => let (l', r) := handler in (l ++ l', r)
  | done => done
  end.

(** The log and the outcome of a run. *)
Definition log {A : Type} (m : M A) : list event := fst m.
Definition outcome {A : Type} (m : M A) : result A := snd m.

(** ** Library calls *)

Definition read_file {T : Type} (f : file_state T) : M T :=
  match f with
  | Missing => lift (Raise FileNotFoundError)
  | Unreadable cls => lift (Raise (OtherError cls))
  | Holds content => ret content
  end.

(** [pd.read_csv(path, index_col=0)] *)
Definition read_csv_index0 (W : World) (path : string) : M RmsdFrame :=
  read_file (matrix_files W path).

(** [pd.read_csv(path)] *)
Definition read_csv (W : World) (path : string) : M Metadata :=
  read_file (table_files W path).

(** scikit-learn's reading of [random_state]: an integer seeds a generator of
    its own, [None] takes numpy's process-wide one. *)
Definition check_random_state (L : Libraries) (W : World) (seed : option Z) : rng_state :=
  match seed with
  | Some s => RandomState L s
  | None => np_random W
  end.

(** [mds.fit_transform(X)] *)
Definition fit_transform (L : Libraries) (W : World) (mds : MDS) (X : RmsdFrame)
  : M (list (list R)) :=
  ([FitTransform mds X], smacof L (check_random_state L W (random_state mds)) mds X).

(** [pd.DataFrame(coords, columns=['Dim1', 'Dim2'], index=index)]: a
    ValueError unless [coords] is a (len(index), 2) array. *)
Fixpoint coords_frame (coords : list (list R)) (index : list string)
  : result (list CoordRow) :=
  match coords, index with
  | [], [] => Ok []
  | [x; y] :: coords', i :: index' =>
      match coords_frame coords' index' with
      | Ok rows => Ok (mkCoord i x y :: rows)
      | Raise e => Raise e
      end
  | _, _ => Raise ValueError
  end.

(** [coords_df.merge(metadata, left_index=True, right_on='Sequence_ID')]: an
    inner join, in the order of the left rows. *)
Definition merge (coords_df : list CoordRow) (metadata : Metadata) : DataFrame :=
  flat_map
    (fun c =>
       map (fun m => mkRow (coord1 c) (coord2 c) (meta_Sequence_ID m) (meta_Lineage m))
           (filter (fun m => String.eqb (meta_Sequence_ID m) (label c)) metadata))
    coords_df.

Definition draw (L : Libraries) (data : DataFrame) : M unit :=
  ([Draw data], draw_figure L data).

Definition savefig (L : Libraries) (path : string) : M unit :=
  ([Savefig path], write_figure L path).

(** ** Configuration *)

Definition INPUT_RMSD_MATRIX : string := "data/RMSD_Matrix_All_vs_All.csv".
Definition METADATA_FILE : string := "data/Pacifastin_Metadata.csv".
Definition OUTPUT_DIR : string := "results/structural_landscape/".

(** ** run_mds_analysis *)

Definition mds_config : MDS := mkMDS 2 "precomputed" (Some 42%Z) 4.

Local Open Scope script_scope.

Definition run_mds_analysis (L : Libraries) (W : World) : M unit :=
  print "Loading data..." ;;
  loaded <- try_except_FileNotFoundError
              (rmsd_df <- read_csv_index0 W INPUT_RMSD_MATRIX ;;
               metadata <- read_csv W METADATA_FILE ;;
               ret (Some (rmsd_df, metadata)))
              (print ("Error: Input files not found. Please check "
                      ++ INPUT_RMSD_MATRIX ++ " and " ++ METADATA_FILE)%string ;;
               ret None) ;;
  match loaded with
  | None => ret tt
  | Some (rmsd_df, metadata) =>
      print "Running MDS projection..." ;;
      coords <- fit_transform L W mds_config rmsd_df ;;
      coords_df <- lift (coords_frame coords (index rmsd_df)) ;;
      let coords_df := merge coords_df metadata in
      let di_extended := calculate_dispersion coords_df "Extended-loop" in
      let di_compact := calculate_dispersion coords_df "Compact-loop" in
      emit (PrintIndex "Dispersion Index (Extended): " di_extended) ;;
      emit (PrintIndex "Dispersion Index (Compact): " di_compact) ;;
      draw L coords_df ;;
      savefig L (OUTPUT_DIR ++ "/Figure4_MDS_Landscape.pdf")%string ;;
      print ("Plot saved to " ++ OUTPUT_DIR)%string
  end.

Local Close Scope script_scope.

(** ** Terms of the specification used to state its claims *)

(** Tolerance of the matrix contract (1e-6). *)
Definition epsilon : R := 1 / 1000000.

Definition entry_at (X : RmsdFrame) (i j : nat) : entry :=
  nth j (nth i (values X) []) NonFinite.

Definition non_square (X : RmsdFrame) : Prop :=
  exists row, In row (values X) /\ List.length row <> List.length (values X).

Definition asymmetric (X : RmsdFrame) : Prop :=
  exists i j a b,
    entry_at X i j = Finite a /\ entry_at X j i = Finite b /\ Rabs (a - b) > epsilon.

Definition nonzero_diagonal (X : RmsdFrame) : Prop :=
  exists i a, entry_at X i i = Finite a /\ Rabs a > epsilon.

Definition invalid_value (X : RmsdFrame) : Prop :=
  exists row e,
    In row (values X) /\ In e row /\ (e = NonFinite \/ exists a, e = Finite a /\ a < 0).

(** A matrix the specification's validator would reject. *)
Definition violates_matrix_contract (X : RmsdFrame) : Prop :=
  non_square X \/ asymmetric X \/ nonzero_diagonal X \/ invalid_value X.

(** A run that fails fast: it ends with an exception and never called into
    scikit-learn. *)
Definition aborts_before_embedding (run : M unit) : Prop :=
  (exists e, outcome run = Raise e)
  /\ (forall mds X, ~ In (FitTransform mds X) (log run)).

(** Number of distinct entities of a matrix. *)
Definition entity_count (X : RmsdFrame) : nat :=
  List.length (nodup string_dec (index X)).

(** The same files seen by a process whose numpy generator is in state [g]. *)
Definition with_generator (W : World) (g : rng_state) : World :=
  mkWorld (matrix_files W) (table_files W) g.

(** The two lines printed when an input file is not found. *)
Definition not_found_log : list event :=
  [Print "Loading data...";
   Print "Error: Input files not found. Please check data/RMSD_Matrix_All_vs_All.csv and data/Pacifastin_Metadata.csv"].

(** What every run that loaded [X] logs up to the call into scikit-learn. *)
Definition embedding_prefix (X : RmsdFrame) : list event :=
  [Print "Loading data..."; Print "Running MDS projection..."; FitTransform mds_config X].

(** ** Sample inputs *)

Definition fin (z : Z) : entry := Finite (IZR z).

(** Four points on a line, one unit apart. *)
Definition line_matrix : RmsdFrame :=
  mkRmsd ["A"; "B"; "C"; "D"]%string
         [[fin 0; fin 1; fin 2; fin 3];
          [fin 1; fin 0; fin 1; fin 2];
          [fin 2; fin 1; fin 0; fin 1];
          [fin 3; fin 2; fin 1; fin 0]].

(** The same table with a negative distance between C and D. *)
Definition negative_matrix : RmsdFrame :=
  mkRmsd ["A"; "B"; "C"; "D"]%string
         [[fin 0; fin 1; fin 2; fin 3];
          [fin 1; fin 0; fin 1; fin 2];
          [fin 2; fin 1; fin 0; fin (-1)];
          [fin 3; fin 2; fin (-1); fin 0]].

(** Three entities only. *)
Definition three_matrix : RmsdFrame :=
  mkRmsd ["A"; "B"; "C"]%string
         [[fin 0; fin 1; fin 2];
          [fin 1; fin 0; fin 1];
          [fin 2; fin 1; fin 0]].

Definition line_labels : Metadata :=
  [mkMeta "A" "Extended-loop"; mkMeta "B" "Extended-loop";
   mkMeta "C" "Compact-loop"; mkMeta "D" "Compact-loop"].

(** A metadata row whose identifier is in none of the matrices above. *)
Definition stray_label : MetaRow := mkMeta "Z9" "Compact-loop".

Definition files_of {T : Type} (path : string) (content : file_state T)
  : string -> file_state T :=
  fun p => if String.eqb p path then content else Missing.

(** Both input files present. *)
Definition world_of (X : RmsdFrame) (metadata : Metadata) : World :=
  mkWorld (files_of INPUT_RMSD_MATRIX (Holds X))
          (files_of METADATA_FILE (Holds metadata))
          [].

(** No input file at all. *)
Definition empty_world : World :=
  mkWorld (fun _ => Missing) (fun _ => Missing) [].

(** A library whose solver lays the entities out on the first axis, one unit
    apart, and whose plotting calls succeed. *)
Definition line_layout : Libraries :=
  mkLibraries (fun seed => [seed])
              (fun _ _ X => Ok (map (fun i => [IZR (Z.of_nat i); 0])
                                    (seq 0 (List.length (index X)))))
              (fun _ => Ok tt)
              (fun _ => Ok tt).

(** A library whose solver rejects its input with a ValueError. *)
Definition rejecting : Libraries :=
  mkLibraries (fun seed => [seed])
              (fun _ _ _ => Raise ValueError)
              (fun _ => Ok tt)
              (fun _ => Ok tt).

(** A table with one Extended-loop row. *)
Definition single_row_table : DataFrame :=
  [mkRow 3 4 "A" "Extended-loop"; mkRow 1 1 "C" "Compact-loop"; mkRow 2 5 "D" "Compact-loop"].

(** The coordinate table [line_layout] yields for [three_matrix]. *)
Definition three_coords : list (list R) := [[0; 0]; [1; 0]; [2; 0]].

Definition three_rows : list CoordRow :=
  [mkCoord "A" 0 0; mkCoord "B" 1 0; mkCoord "C" 2 0].

(** Only the metadata file is missing. *)
Definition matrix_only_world : World :=
  mkWorld (files_of INPUT_RMSD_MATRIX (Holds line_matrix)) (fun _ => Missing) [].

(** The four rows [line_layout] yields for [line_matrix]. *)
Definition line_rows : list CoordRow :=
  [mkCoord "A" 0 0; mkCoord "B" 1 0; mkCoord "C" 2 0; mkCoord "D" 3 0].

(** A library whose solver shifts the layout by the first word of the
    generator it is handed. *)
Definition generator_echo : Libraries :=
  mkLibraries (fun seed => [seed])
              (fun g _ X => Ok (map (fun _ => [IZR (hd 0%Z g); 0]) (index X)))
              (fun _ => Ok tt)
              (fun _ => Ok tt).

(** ** Rescaling a configuration *)

Definition scale_point (k : R) (p : point) : point := (k * fst p, k * snd p).

(** Every coordinate of the table multiplied by [k]. *)
Definition scale_frame (k : R) (coords_df : DataFrame) : DataFrame :=
  map (fun r => mkRow (k * Dim1 r) (k * Dim2 r) (Sequence_ID r) (Lineage r)) coords_df.

(** ** Sample figure path and library *)

(** The path the figure is written to. *)
Definition figure_path : string :=
  "results/structural_landscape//Figure4_MDS_Landscape.pdf".

(** A library whose plotting works but whose figure cannot be written (the
    output directory does not exist). *)
Definition unwritable : Libraries :=
  mkLibraries (fun seed => [seed])
              (fun _ _ X => Ok (map (fun i => [IZR (Z.of_nat i); 0])
                                    (seq 0 (List.length (index X)))))
              (fun _ => Ok tt)
              (fun _ => Raise FileNotFoundError).

(** * architectural_loop_classifier.py *)

(** Whether every character of [s] passes [test]. *)
Fixpoint all_chars (test : ascii -> bool) (s : string) : bool :=
  match s with
  | EmptyString => true
  | String c t => test c && all_chars test t
  end.

Module classifier.

Definition INPUT_FASTA : string := "data/Validated_PLDs.fasta".
Definition OUTPUT_CSV : string := "results/Architectural_Classification.csv".

Definition is_C (c : ascii) : bool := Ascii.eqb c "C".

(** [[^C]+] is greedy: the longest run of characters other than 'C' that
    [s] starts with, and the rest of [s]. *)
Fixpoint span_not_C (s : string) : string * string :=
  match s with
  | EmptyString => (EmptyString, EmptyString)
  | String c t =>
      if is_C c then (EmptyString, s)
      else let (run, rest) := span_not_C t in (String c run, rest)
  end.

(** The pattern [C([^C]+)C] tried at the start of [s]: group 1 of the match.
    After the leading 'C' the run takes every character up to the next 'C';
    giving characters back cannot help, since the character after a shorter
    run is not a 'C'.  The run must be non-empty and a 'C' must follow. *)
Definition match_here (s : string) : option string :=
  match s with
  | String c t =>
      if is_C c then
        match span_not_C t with
        | (String x run, String _ _) => Some (String x run)
        | _ => None
        end
      else None
  | EmptyString => None
  end.

(** [re.search(r'C([^C]+)C', s)]: the pattern is tried at each position from
    the left, and the first match wins; the result is its group 1. *)
Fixpoint re_search (s : string) : option string :=
  match match_here s with
  | Some group => Some group
  | None =>
      match s with
      | EmptyString => None
      | String _ t => re_search t
      end
  end.

Definition get_loop_length (sequence : string) : option Z * option string :=
  match re_search sequence with
  | Some loop_seq => (Some (Z.of_nat (String.length loop_seq)), Some loop_seq)
  | None => (None, None)
  end.

Definition classify_architecture (length : Z) : string :=
  if ((9 <=? length) && (length <=? 12))%Z then "Compact-loop"
  else if ((13 <=? length) && (length <=? 20))%Z then "Extended-loop"
  else "Unclassified/Other".

(** One dictionary appended to [data]. *)
Record Entry : Type := mkEntry {
  Sequence_ID : string;
  C1_C2_Length : Z;
  Loop_Sequence : option string;
  Lineage : string
}.

(** [if length:] on a value that is an integer or [None]. *)
Definition truthy (length : option Z) : option Z :=
  match length with
  | Some n => if (n =? 0)%Z then None else Some n
  | None => None
  end.

(** The loop of [main] over the (identifier, sequence) pairs: the list
    [data] it builds. *)
Fixpoint main_loop (seqs : list (string * string)) : list Entry :=
  match seqs with
  | [] => []
  | (seq_id, seq_str) :: rest =>
      let (length, loop_seq) := get_loop_length seq_str in
      match truthy length with
      | Some n => mkEntry seq_id n loop_seq (classify_architecture n) :: main_loop rest
      | None => main_loop rest
      end
  end.

Definition mock_seqs : list (string * string) :=
  [("Seq1", "C123456789C"); ("Seq2", "C123456789012345C")]%string.

End classifier.

(** No character of [s] is a 'C'. *)
Definition free_of_C (s : string) : Prop :=
  all_chars (fun c => negb (classifier.is_C c)) s = true.

(** Every character of [s] is a 'C'. *)
Definition only_C (s : string) : Prop :=
  all_chars classifier.is_C s = true.

(** * linker_cleavage_GLM_analysis.py *)

(** [s * n] *)
Fixpoint repeat_string (s : string) (n : nat) : string :=
  match n with
  | O => EmptyString
  | S n' => String.append s (repeat_string s n')
  end.

Module linker.

Definition INPUT_FILE : string := "data/Linker_Sequences_Validated.csv".
Definition OUTPUT_DIR : string := "results/glm_analysis/".

(** [motif in seq]: [motif] starts at some position of [seq]. *)
Fixpoint contains (motif seq : string) : bool :=
  String.prefix motif seq
  || match seq with
     | EmptyString => false
     | String _ t => contains motif t
     end.

(** The loop [for motif in motifs: if motif in seq: return 1]. *)
Fixpoint first_hit (motifs : list string) (seq : string) : Z :=
  match motifs with
  | [] => 0
  | motif :: rest => if contains motif seq then 1 else first_hit rest seq
  end.

Definition detect_cleavage_sites (seq : string) : Z :=
  let motifs := ["KR"; "RR"; "RK"; "KK"]%string in
  first_hit motifs seq.

(** Step 1 of [run_glm_analysis], "Feature Engineering": the columns
    'Length' and 'Has_Cleavage' computed from the column 'Linker_Seq'. *)
Definition feature_engineering (Linker_Seq : list string) : list (Z * Z) :=
  map (fun seq => (Z.of_nat (String.length seq), detect_cleavage_sites seq)) Linker_Seq.

(** The mock column ['A' * np.random.randint(5, 50) for _ in range(n)],
    for the numbers drawn. *)
Definition mock_linkers (drawn : list nat) : list string :=
  map (fun k => repeat_string "A" k) drawn.

End linker.

(** K or R. *)
Definition basic (c : ascii) : Prop := c = "K"%char \/ c = "R"%char.

(** * Structural_Prediction_ESMFold.py *)

(** The last character of a string, if it has one. *)
Fixpoint last_char (s : string) : option ascii :=
  match s with
  | EmptyString => None
  | String c EmptyString => Some c
  | String _ t => last_char t
  end.

Module esmfold.

Definition INPUT_FASTA : string := "data/candidates_for_modeling.fasta".
Definition OUTPUT_DIR : string := "data/pdb_models/".
Definition API_URL : string := "https://api.esmatlas.com/foldSequence/v1/pdb/".
Definition MAX_RETRIES : nat := 3.
Definition SLEEP_TIME : Z := 2.

(** What [requests.post] does: it returns a response or raises. *)
Inductive reply : Type :=
| Response (status_code : Z) (text : string)
| Exception (message : string).

(** The service: the reply to the [k]-th request of the process, given the
    data posted. *)
Definition Network := nat -> string -> reply.

Inductive event : Type :=
| Post (url data : string)
| Sleep (seconds : Z)
| ErrorLine (status_code : Z) (header : string)   (* "  [Error] API returned ... Retrying..." *)
| ExceptionLine (message : string)                (* "  [Exception] ... Retrying..." *)
| ReadingLine                                     (* "Reading sequences from ..." *)
| SkippingLine (position total : nat) (seq_id : string)
| ModelingLine (position total : nat) (seq_id : string)
| FailedLine (seq_id : string).

(** [range(n)] *)
Definition range (n : nat) : list Z := map Z.of_nat (seq 0 n).

(** The loop of [predict_structure] over the attempt numbers left.  [k]
    counts the requests made so far; the result carries the new count. *)
Fixpoint attempts (net : Network) (k : nat) (sequence header : string) (todo : list Z)
  : list event * option string * nat :=
  match todo with
  | [] => ([], None, k)
  | attempt :: rest =>
      match net k sequence with
      | Response status_code text =>
          if (status_code =? 200)%Z then ([Post API_URL sequence], Some text, S k)
          else
            let '(events, result, k') := attempts net (S k) sequence header rest in
            (Post API_URL sequence :: ErrorLine status_code header
               :: Sleep (SLEEP_TIME * (attempt + 1)) :: events,
             result, k')
      | Exception message =>
          let '(events, result, k') := attempts net (S k) sequence header rest in
          (Post API_URL sequence :: ExceptionLine message :: Sleep SLEEP_TIME :: events,
           result, k')
      end
  end.

Definition predict_structure (net : Network) (k : nat) (sequence header : string)
  : list event * option string * nat :=
  attempts net k sequence header (range MAX_RETRIES).

(** A FASTA record: [record.id] and [str(record.seq)]. *)
Record SeqRecord : Type := mkSeqRecord {
  id : string;
  seq : string
}.

(** The disk: file contents, directories, and which paths [open] accepts
    for writing. *)
Record Disk : Type := mkDisk {
  files : string -> option string;
  dirs : string -> bool;
  openable : string -> bool
}.

(** [os.path.exists(path)] *)
Definition exists_ (d : Disk) (path : string) : bool :=
  match files d path with
  | Some _ => true
  | None => dirs d path
  end.

(** [os.makedirs(path)] *)
Definition makedirs (d : Disk) (path : string) : Disk :=
  mkDisk (files d) (fun p => if String.eqb p path then true else dirs d p) (openable d).

(** [open(path, "w")] followed by [write(content)] *)
Definition write_file (d : Disk) (path content : string) : Disk :=
  mkDisk (fun p => if String.eqb p path then Some content else files d p)
         (dirs d) (openable d).

(** [open(path, "a")] followed by [write(content)] *)
Definition append_file (d : Disk) (path content : string) : Disk :=
  mkDisk (fun p => if String.eqb p path
                   then Some (match files d p with
                              | Some old => String.append old content
                              | None => content
                              end)
                   else files d p)
         (dirs d) (openable d).

(** [os.path.join(a, b)] on POSIX. *)
Definition os_path_join (a b : string) : string :=
  match b with
  | String "/" _ => b
  | _ =>
      match last_char a with
      | None => b
      | Some "/"%char => String.append a b
      | Some _ => String.append a (String "/" b)
      end
  end.

Definition newline : string := String (ascii_of_nat 10) EmptyString.

Definition FAILED_LOG : string := "failed_sequences.log".

(** How [main] ends: it returns, or an [open] raised. *)
Inductive ending : Type :=
| Returned
| Raised (path : string).

(** The loop of [main] over [enumerate(sequences)], from position [i]. *)
Fixpoint main_loop (net : Network) (k : nat) (d : Disk) (i total : nat)
         (sequences : list SeqRecord) : list event * Disk * nat * ending :=
  match sequences with
  | [] => ([], d, k, Returned)
  | record :: rest =>
      let seq_id := id record in
      let output_file := os_path_join OUTPUT_DIR (String.append seq_id ".pdb") in
      if exists_ d output_file then
        let '(events, d', k', e) := main_loop net k d (S i) total rest in
        (SkippingLine (i + 1) total seq_id :: events, d', k', e)
      else
        let '(requests, pdb_content, k1) := predict_structure net k (seq record) seq_id in
        let head := ModelingLine (i + 1) total seq_id :: requests in
        match pdb_content with
        | Some (String c text) =>
            if openable d output_file then
              let '(events, d', k', e) :=
                main_loop net k1 (write_file d output_file (String c text)) (S i) total rest in
              (head ++ Sleep SLEEP_TIME :: events, d', k', e)
            else (head, d, k1, Raised output_file)
        | _ =>
            if openable d FAILED_LOG then
              let '(events, d', k', e) :=
                main_loop net k1 (append_file d FAILED_LOG (String.append seq_id newline))
                          (S i) total rest in
              (head ++ FailedLine seq_id :: Sleep SLEEP_TIME :: events, d', k', e)
            else (head, d, k1, Raised FAILED_LOG)
        end
  end.

Definition main (net : Network) (d : Disk) (sequences : list SeqRecord)
  : list event * Disk * nat * ending :=
  let d := if exists_ d OUTPUT_DIR then d else makedirs d OUTPUT_DIR in
  let '(events, d', k', e) := main_loop net 0 d 0 (List.length sequences) sequences in
  (ReadingLine :: events, d', k', e).

End esmfold.

(** The seconds slept in a list of events. *)
Fixpoint total_sleep (events : list esmfold.event) : Z :=
  match events with
  | [] => 0
  | esmfold.Sleep seconds :: rest => seconds + total_sleep rest
  | _ :: rest => total_sleep rest
  end.

(** The number of requests in a list of events. *)
Fixpoint count_posts (events : list esmfold.event) : nat :=
  match events with
  | [] => 0
  | esmfold.Post _ _ :: rest => S (count_posts rest)
  | _ :: rest => count_posts rest
  end.

(** Whether a reply is a response with status 200. *)
Definition is_200 (r : esmfold.reply) : bool :=
  match r with
  | esmfold.Response status_code _ => (status_code =? 200)%Z
  | esmfold.Exception _ => false
  end.

(** The file [main] writes the model of [seq_id] to. *)
Definition pdb_path (seq_id : string) : string :=
  esmfold.os_path_join esmfold.OUTPUT_DIR (String.append seq_id ".pdb").

(** A service that is down: every request is answered with status 503. *)
Definition service_down : esmfold.Network :=
  fun _ _ => esmfold.Response 503 "Service Unavailable".

(** A service that answers every request with status 200 and no body. *)
Definition empty_answers : esmfold.Network :=
  fun _ _ => esmfold.Response 200 "".

Local Open Scope string_scope.

(** A disk that holds one model, accepts every write, and has the output
    directory. *)
Definition one_model_disk : esmfold.Disk :=
  esmfold.mkDisk
    (fun p => if String.eqb p "data/pdb_models/P1.pdb" then Some "ATOM"%string else None)
    (fun p => String.eqb p "data/pdb_models/")
    (fun _ => true).

Definition two_records : list esmfold.SeqRecord :=
  [esmfold.mkSeqRecord "P1" "MKT"; esmfold.mkSeqRecord "P2" "MCC"].

Local Close Scope string_scope.

(** * Network_Topology_Analysis.py *)

Module network.

(** The attribute dictionary of a node: the keys 'type', 'size' and 'count',
    each present or not. *)
Record Attrs : Type := mkAttrs {
  type_ : option string;
  size : option Z;
  count : option Z
}.

(** An undirected graph: the nodes with their attributes, in insertion
    order, and the edges with their 'weight'. *)
Record Graph : Type := mkGraph {
  nodes : list (string * Attrs);
  edges : list (string * string * Z)
}.

Definition empty_graph : Graph := mkGraph [] [].

(** A row as [iterrows] yields it: its cells under their column labels. *)
Definition Series : Type := list (string * string).

(** What a step of the function ends in: a graph, or a KeyError with its
    key. *)
Inductive outcome : Type :=
| Returned (G : Graph)
| KeyError (key : string).

(** [row[label]]: [None] without that label. *)
Fixpoint getitem (row : Series) (label : string) : option string :=
  match row with
  | [] => None
  | (l, cell) :: rest => if String.eqb l label then Some cell else getitem rest label
  end.

Fixpoint find_node (n : string) (l : list (string * Attrs)) : option Attrs :=
  match l with
  | [] => None
  | (m, a) :: rest => if String.eqb m n then Some a else find_node n rest
  end.

(** [G.has_node(n)] *)
Definition has_node (G : Graph) (n : string) : bool :=
  match find_node n (nodes G) with
  | Some _ => true
  | None => false
  end.

(** [old.update(new)] on attribute dictionaries. *)
Definition update_attrs (old new : Attrs) : Attrs :=
  mkAttrs (match type_ new with Some t => Some t | None => type_ old end)
          (match size new with Some s => Some s | None => size old end)
          (match count new with Some c => Some c | None => count old end).

Definition set_node (n : string) (f : Attrs -> Attrs) (l : list (string * Attrs))
  : list (string * Attrs) :=
  map (fun entry => if String.eqb (fst entry) n then (fst entry, f (snd entry)) else entry) l.

(** [G.add_node(n, **attrs)]: a new node, or new attributes for an old one. *)
Definition add_node (G : Graph) (n : string) (attrs : Attrs) : Graph :=
  if has_node G n
  then mkGraph (set_node n (fun old => update_attrs old attrs) (nodes G)) (edges G)
  else mkGraph (nodes G ++ [(n, attrs)]) (edges G).

(** Whether a stored edge joins [u] and [v], in either direction. *)
Definition joins (u v : string) (e : string * string * Z) : bool :=
  let '(a, b, _) := e in
  (String.eqb a u && String.eqb b v) || (String.eqb a v && String.eqb b u).

(** [G.has_edge(u, v)] *)
Definition has_edge (G : Graph) (u v : string) : bool :=
  existsb (joins u v) (edges G).

(** [G.add_edge(u, v, weight=w)] between two nodes that have no edge yet;
    a missing end node is created without attributes. *)
Definition add_edge (G : Graph) (u v : string) (w : Z) : Graph :=
  let G := if has_node G u then G else add_node G u (mkAttrs None None None) in
  let G := if has_node G v then G else add_node G v (mkAttrs None None None) in
  mkGraph (nodes G) (edges G ++ [(u, v, w)]).

(** [G.nodes[n]['count'] += 1]: a KeyError without the node or without the
    key 'count'. *)
Definition increment_count (G : Graph) (n : string) : outcome :=
  match find_node n (nodes G) with
  | Some a =>
      match count a with
      | Some c =>
          Returned (mkGraph (set_node n (fun old => mkAttrs (type_ old) (size old) (Some (c + 1)%Z))
                                      (nodes G))
                            (edges G))
      | None => KeyError "count"
      end
  | None => KeyError n
  end.

(** [G[u][v]['weight'] += 1]: a KeyError without the edge, its key the node
    that is not found. *)
Definition increment_weight (G : Graph) (u v : string) : outcome :=
  if has_edge G u v
  then Returned (mkGraph (nodes G)
                         (map (fun e => if joins u v e
                                        then let '(a, b, w) := e in (a, b, (w + 1)%Z)
                                        else e)
                              (edges G)))
  else if has_node G u then KeyError v else KeyError u.

(** The body of the loop for one row. *)
Definition add_row (G : Graph) (row : Series) : outcome :=
  match getitem row "Accessory_Domain" with
  | None => KeyError "Accessory_Domain"
  | Some domain =>
      if negb (String.eqb domain "Pacifastin") then
        let G := if negb (has_node G domain)
                 then add_node G domain (mkAttrs (Some "Accessory"%string) None (Some 0%Z))
                 else G in
        match increment_count G domain with
        | Returned G =>
            if has_edge G "Pacifastin" domain
            then increment_weight G "Pacifastin" domain
            else Returned (add_edge G "Pacifastin" domain 1)
        | KeyError key => KeyError key
        end
      else Returned G
  end.

(** The loop over [df_domains.iterrows()]. *)
Fixpoint add_rows (G : Graph) (rows : list Series) : outcome :=
  match rows with
  | [] => Returned G
  | row :: rest =>
      match add_row G row with
      | Returned G' => add_rows G' rest
      | KeyError key => KeyError key
      end
  end.

(** [build_network(df_domains, lineage_name)], the table given by its
    rows. *)
Definition build_network (df_domains : list Series) (lineage_name : string) : outcome :=
  let G := empty_graph in
  let G := add_node G "Pacifastin" (mkAttrs (Some "Core"%string) (Some 2000%Z) None) in
  add_rows G df_domains.

(** [G[u][v]['weight']] *)
Fixpoint edge_weight (l : list (string * string * Z)) (u v : string) : option Z :=
  match l with
  | [] => None
  | e :: rest => if joins u v e then Some (snd e) else edge_weight rest u v
  end.

End network.

(** The attributes of the central node and of an accessory node seen [n]
    times. *)
Definition core_attrs : network.Attrs :=
  network.mkAttrs (Some "Core"%string) (Some 2000%Z) None.

Definition accessory_attrs (n : nat) : network.Attrs :=
  network.mkAttrs (Some "Accessory"%string) None (Some (Z.of_nat n)).

(** The cells of the column 'Accessory_Domain', row by row. *)
Definition accessory_domains (df_domains : list network.Series) : list string :=
  flat_map (fun row => match network.getitem row "Accessory_Domain" with
                       | Some domain => [domain]
                       | None => []
                       end)
           df_domains.

(** Every row has a cell under 'Accessory_Domain'. *)
Definition has_accessory_column (df_domains : list network.Series) : Prop :=
  forall row, In row df_domains -> network.getitem row "Accessory_Domain" <> None.

(** A table of four rows: two name Kazal, one the core domain, one
    Trypsin. *)
Definition sample_domains : list network.Series :=
  [ [("Sequence_ID", "s1"); ("Accessory_Domain", "Kazal")];
    [("Sequence_ID", "s2"); ("Accessory_Domain", "Pacifastin")];
    [("Sequence_ID", "s3"); ("Accessory_Domain", "Kazal")];
    [("Sequence_ID", "s4"); ("Accessory_Domain", "Trypsin")] ]%string.

(** How often [domain] occurs in the column. *)
Definition occurrences (domain : string) (df_domains : list string) : nat :=
  count_occ string_dec df_domains domain.

(** The node list and the edge list of a star: the central node, one
    accessory node for each name of [names] and one edge from the centre to
    each, counts and weights taken from the column [seen]. *)
Definition star_nodes (names seen : list string) : list (string * network.Attrs) :=
  ("Pacifastin"%string, core_attrs)
    :: map (fun n => (n, accessory_attrs (occurrences n seen))) names.

Definition star_edges (names seen : list string) : list (string * string * Z) :=
  map (fun n => ("Pacifastin"%string, n, Z.of_nat (occurrences n seen))) names.

Definition star (names seen : list string) : network.Graph :=
  network.mkGraph (star_nodes names seen) (star_edges names seen).

(** [names] lists, once each, the accessory domains of the column [seen]. *)
Definition lists_domains (names seen : list string) : Prop :=
  NoDup names
  /\ forall d, In d names <-> d <> "Pacifastin"%string /\ (0 < occurrences d seen)%nat.

(** The sum of the weights of a list of edges. *)
Definition total_weight (l : list (string * string * Z)) : Z :=
  fold_right (fun e acc => (snd e + acc)%Z) 0%Z l.

(** * Phyletic_Spread_&_Depth.py *)

Module phyletic.

(** A row of the taxonomy table, with the columns the script expects; a cell
    that pandas holds as NaN is [None]. *)
Record TaxonRow : Type := mkTaxonRow {
  Sequence_ID : string;
  Lineage : option string;
  Phylum : option string;
  Species : option string
}.

(** The lambda that fills the 'Supergroup' column; a missing phylum is not
    equal to 'Arthropoda'. *)
Definition supergroup_of (x : option string) : string :=
  match x with
  | Some p => if String.eqb p "Arthropoda" then "Arthropoda" else "Non-Arthropoda"
  | None => "Non-Arthropoda"
  end.

(** A group key of [df.groupby(['Lineage', 'Supergroup'])]. *)
Definition Key : Type := (string * string)%type.

Definition key_dec (a b : Key) : {a = b} + {a <> b}.
Proof. decide equality; apply string_dec. Defined.

(** Tuples of strings compare by their first component, then the second. *)
Definition key_leb (a b : Key) : bool :=
  match String.compare (fst a) (fst b) with
  | Lt => true
  | Eq => String.leb (snd a) (snd b)
  | Gt => false
  end.

(** The key of a row; a row whose 'Lineage' is missing belongs to no group. *)
Definition key_of (r : TaxonRow) : option Key :=
  match Lineage r with
  | Some lineage => Some (lineage, supergroup_of (Phylum r))
  | None => None
  end.

(** The values of a column that are not NaN. *)
Fixpoint notna {A : Type} (col : list (option A)) : list A :=
  match col with
  | [] => []
  | Some v :: rest => v :: notna rest
  | None :: rest => notna rest
  end.

(** [Series.nunique()]: the number of distinct values, NaN left out. *)
Definition nunique (col : list (option string)) : nat :=
  List.length (nodup string_dec (notna col)).

Fixpoint insert_key (k : Key) (l : list Key) : list Key :=
  match l with
  | [] => [k]
  | h :: rest => if key_leb k h then k :: l else h :: insert_key k rest
  end.

Definition sort_keys (l : list Key) : list Key := fold_right insert_key [] l.

(** The keys the groupby iterates over: each key that occurs, once, in
    ascending order. *)
Definition group_keys (df : list TaxonRow) : list Key :=
  sort_keys (nodup key_dec (notna (map key_of df))).

Definition in_group (k : Key) (r : TaxonRow) : bool :=
  match key_of r with
  | Some k' => if key_dec k' k then true else false
  | None => false
  end.

(** The rows of one group, in the order of the table. *)
Definition group_data (k : Key) (df : list TaxonRow) : list TaxonRow :=
  filter (in_group k) df.

(** A row of the returned table.  [Di] is the result of Python's true
    division, read as a real number. *)
Record Metric : Type := mkMetric {
  m_Lineage : string;
  m_Supergroup : string;
  Si : nat;
  Di : R;
  N_Seq : nat;
  N_Species : nat
}.

(** The body of the loop over the groups. *)
Definition metric_of (k : Key) (group : list TaxonRow) : Metric :=
  let n_sequences := List.length group in
  let n_species := nunique (map Species group) in
  let n_phyla := nunique (map Phylum group) in
  let Si := n_phyla in
  let Di := if Nat.ltb 0 n_species then INR n_sequences / INR n_species else 0 in
  mkMetric (fst k) (snd k) Si Di n_sequences n_species.

(** [calculate_metrics(df)].  The call also stores the 'Supergroup' column in
    the caller's table; the value modelled here is the returned table. *)
Definition calculate_metrics (df : list TaxonRow) : list Metric :=
  map (fun k => metric_of k (group_data k df)) (group_keys df).

End phyletic.

(** The stratum a row of the returned table stands for. *)
Definition stratum (m : phyletic.Metric) : phyletic.Key :=
  (phyletic.m_Lineage m, phyletic.m_Supergroup m).

(** The rows that carry a lineage. *)
Definition with_lineage (df : list phyletic.TaxonRow) : list phyletic.TaxonRow :=
  filter (fun r => match phyletic.Lineage r with Some _ => true | None => false end) df.

(** A small table: two arthropod sequences of one species, a mollusc
    sequence without a species, and a sequence without a lineage. *)
Definition sample_taxa : list phyletic.TaxonRow :=
  [ phyletic.mkTaxonRow "s1" (Some "Compact-loop"%string) (Some "Arthropoda"%string) (Some "Locusta migratoria"%string);
    phyletic.mkTaxonRow "s2" (Some "Compact-loop"%string) (Some "Arthropoda"%string) (Some "Locusta migratoria"%string);
    phyletic.mkTaxonRow "s3" (Some "Extended-loop"%string) (Some "Mollusca"%string) None;
    phyletic.mkTaxonRow "s4" None (Some "Arthropoda"%string) (Some "Apis mellifera"%string) ].

(** * Properties *)

(** ** Reductions over finite values *)

Lemma dropna_Num {A : Type} (f : A -> R) (l : list A) :
  pd.dropna (map (fun a => Num (f a)) l) = map f l.
Proof.
  induction l as [|a l IH]; simpl; [reflexivity | now rewrite IH].
Qed.

Lemma mean_Num {A : Type} (f : A -> R) (l : list A) :
  l <> [] ->
  pd.mean (map (fun a => Num (f a)) l) = Num (arithmetic_mean (map f l)).
Proof.
  intros Hne. unfold pd.mean. rewrite dropna_Num.
  destruct l as [|a l]; [congruence | reflexivity].
Qed.

Lemma arithmetic_mean_nil : arithmetic_mean [] = 0.
Proof. unfold arithmetic_mean, Rdiv. simpl. apply Rmult_0_l. Qed.

Lemma sqrt_Num_nonneg (x : R) : 0 <= x -> np.sqrt (Num x) = Num (sqrt x).
Proof.
  intros Hx. unfold np.sqrt. destruct (Rlt_dec x 0) as [Hlt|_]; [lra | reflexivity].
Qed.

(** The distance of one row to a finite centroid, as the script computes it. *)
Lemma row_distance (x y cx cy : R) :
  np.sqrt (pd.sum [np.square (np.sub (Num x) (Num cx));
                   np.square (np.sub (Num y) (Num cy))])
  = Num (euclidean_distance (x, y) (cx, cy)).
Proof.
  unfold pd.sum, np.square, np.sub, euclidean_distance, Rsqr.
  cbn [pd.dropna Rsum fold_right fst snd].
  rewrite sqrt_Num_nonneg.
  - do 2 f_equal. ring.
  - pose proof (pow2_ge_0 (x - cx)). pose proof (pow2_ge_0 (y - cy)). lra.
Qed.

(** On a non-empty selection every intermediate value is finite and the
    result is the mean distance to the centroid. *)
Lemma dispersion_of_rows (subset : DataFrame) :
  subset <> [] ->
  pd.mean
    (map (fun r =>
            np.sqrt (pd.sum
              [np.square (np.sub (Num (Dim1 r)) (pd.mean (map (fun r => Num (Dim1 r)) subset)));
               np.square (np.sub (Num (Dim2 r)) (pd.mean (map (fun r => Num (Dim2 r)) subset)))]))
         subset)
  = Num (mean_distance_to_centroid (map (fun r => (Dim1 r, Dim2 r)) subset)).
Proof.
  intros Hne.
  rewrite (mean_Num Dim1 subset Hne), (mean_Num Dim2 subset Hne).
  unfold mean_distance_to_centroid, centroid_of.
  rewrite !map_map. simpl.
  rewrite <- (mean_Num _ subset Hne).
  f_equal. apply map_ext. intros r. apply row_distance.
Qed.

(** The index of a lineage that has rows, in closed form. *)
(** The rows the code selects are the members of the lineage. *)
Lemma members_rows (coords_df : DataFrame) (name : string) :
  members coords_df name
  = map (fun r => (Dim1 r, Dim2 r)) (select_lineage coords_df name).
Proof.
  unfold select_lineage.
  induction coords_df as [|r rest IH]; [reflexivity|].
  cbn [members filter].
  destruct (string_dec (Lineage r) name) as [Heq|Hne].
  - apply String.eqb_eq in Heq. rewrite Heq. cbn [map]. now rewrite IH.
  - apply String.eqb_neq in Hne. now rewrite Hne.
Qed.

Lemma dispersion_of_selection (coords_df : DataFrame) (name : string) :
  select_lineage coords_df name <> [] ->
  calculate_dispersion coords_df name
  = Num (mean_distance_to_centroid (members coords_df name)).
Proof.
  intros Hne. rewrite members_rows. unfold calculate_dispersion.
  destruct (select_lineage coords_df name) as [|r subset]; [congruence|].
  cbv zeta. change (empty (r :: subset)) with false. cbv iota. cbn [fst snd].
  now apply dispersion_of_rows.
Qed.


(** The mean distance of a single point to its own centroid. *)
Lemma mean_distance_single (p : point) : mean_distance_to_centroid [p] = 0.
Proof.
  destruct p as [x y].
  unfold mean_distance_to_centroid, centroid_of, euclidean_distance, arithmetic_mean.
  cbn [map Rsum fold_right List.length fst snd INR].
  replace (x - (x + 0) / 1) with 0 by field.
  replace (y - (y + 0) / 1) with 0 by field.
  rewrite Rsqr_0, !Rplus_0_r, sqrt_0. field.
Qed.

(** C2.  A lineage with no row or with exactly one row in the table has
    dispersion exactly 0.0: the call returns a number, not NaN, and raises
    nothing. *)
Theorem calculate_dispersion_degenerate (coords_df : DataFrame) (lineage_name : string) :
  (List.length (select_lineage coords_df lineage_name) <= 1)%nat ->
  calculate_dispersion coords_df lineage_name = Num 0.
Proof.
  intros Hlen.
  destruct (select_lineage coords_df lineage_name) as [|r [|r' subset]] eqn:Hsel.
  - unfold calculate_dispersion. now rewrite Hsel.
  - rewrite dispersion_of_selection by (rewrite Hsel; discriminate).
    rewrite members_rows, Hsel. cbn [map].
    now rewrite mean_distance_single.
  - simpl in Hlen. lia.
Qed.

Lemma calculate_dispersion_degenerate_witness :
  calculate_dispersion single_row_table "Extended-loop" = Num 0
  /\ calculate_dispersion single_row_table "Absent" = Num 0.
Proof.
  split.
  - apply (calculate_dispersion_degenerate single_row_table "Extended-loop").
    simpl. lia.
  - apply (calculate_dispersion_degenerate single_row_table "Absent").
    simpl. lia.
Defined.

(** ** Further properties of the dispersion index *)

Lemma Rsum_scale {A : Type} (k : R) (f : A -> R) (l : list A) :
  Rsum (map (fun a => k * f a) l) = k * Rsum (map f l).
Proof.
  induction l as [|a l IH]; simpl; [ring | rewrite IH; ring].
Qed.

Lemma arithmetic_mean_scale {A : Type} (k : R) (f : A -> R) (l : list A) :
  arithmetic_mean (map (fun a => k * f a) l) = k * arithmetic_mean (map f l).
Proof.
  unfold arithmetic_mean. rewrite Rsum_scale, !length_map. unfold Rdiv. ring.
Qed.

Lemma centroid_scale (k : R) (pts : list point) :
  centroid_of (map (scale_point k) pts) = scale_point k (centroid_of pts).
Proof.
  unfold centroid_of, scale_point. rewrite !map_map. cbn [fst snd].
  now rewrite !arithmetic_mean_scale.
Qed.

Lemma euclidean_distance_scale (k : R) (p q : point) :
  0 <= k ->
  euclidean_distance (scale_point k p) (scale_point k q) = k * euclidean_distance p q.
Proof.
  intros Hk. unfold euclidean_distance, scale_point. cbn [fst snd].
  replace (Rsqr (k * fst p - k * fst q) + Rsqr (k * snd p - k * snd q))
    with (Rsqr k * (Rsqr (fst p - fst q) + Rsqr (snd p - snd q)))
    by (unfold Rsqr; ring).
  rewrite sqrt_mult_alt by apply Rle_0_sqr.
  now rewrite sqrt_Rsqr.
Qed.

Lemma mean_distance_scale (k : R) (pts : list point) :
  0 <= k ->
  mean_distance_to_centroid (map (scale_point k) pts) = k * mean_distance_to_centroid pts.
Proof.
  intros Hk. unfold mean_distance_to_centroid.
  rewrite centroid_scale, map_map.
  rewrite <- arithmetic_mean_scale. f_equal.
  apply map_ext. intros p. now apply euclidean_distance_scale.
Qed.

Lemma select_lineage_scale (k : R) (coords_df : DataFrame) (name : string) :
  select_lineage (scale_frame k coords_df) name
  = scale_frame k (select_lineage coords_df name).
Proof.
  unfold select_lineage, scale_frame.
  induction coords_df as [|r df IH]; [reflexivity|].
  cbn [map filter Lineage].
  destruct (String.eqb (Lineage r) name); cbn [map]; now rewrite IH.
Qed.

Lemma members_scale (k : R) (coords_df : DataFrame) (name : string) :
  members (scale_frame k coords_df) name = map (scale_point k) (members coords_df name).
Proof.
  rewrite !members_rows, select_lineage_scale.
  unfold scale_frame. now rewrite !map_map.
Qed.

(** Multiplying every coordinate by [k >= 0] multiplies the dispersion index
    of every lineage by [k]. *)
Lemma calculate_dispersion_scale (k : R) (coords_df : DataFrame) (name : string) :
  0 <= k ->
  calculate_dispersion (scale_frame k coords_df) name
  = Num (k * mean_distance_to_centroid (members coords_df name)).
Proof.
  intros Hk.
  destruct (select_lineage coords_df name) as [|r subset] eqn:Hsel.
  - rewrite members_rows. unfold calculate_dispersion.
    rewrite select_lineage_scale, Hsel. cbn [scale_frame map empty].
    unfold mean_distance_to_centroid. cbn [map].
    rewrite arithmetic_mean_nil. f_equal. ring.
  - rewrite dispersion_of_selection.
    + now rewrite members_scale, mean_distance_scale.
    + rewrite select_lineage_scale, Hsel. discriminate.
Qed.

(** The scenario of four collinear points one unit apart, labelled two and
    two: each lineage has dispersion one half. *)
Lemma line_scenario_dispersion :
  calculate_dispersion (merge line_rows line_labels) "Extended-loop" = Num (1 / 2)
  /\ calculate_dispersion (merge line_rows line_labels) "Compact-loop" = Num (1 / 2).
Proof.
  assert (Hhalf : sqrt (Rsqr (1 / 2)) = 1 / 2) by (apply sqrt_Rsqr; lra).
  split; rewrite dispersion_of_selection by (cbv; discriminate);
    f_equal; rewrite members_rows;
    unfold mean_distance_to_centroid, centroid_of, euclidean_distance, arithmetic_mean;
    cbn [select_lineage merge line_rows line_labels flat_map map filter app
         String.eqb Ascii.eqb Bool.eqb meta_Sequence_ID meta_Lineage label coord1 coord2
         Lineage Dim1 Dim2 fst snd Rsum fold_right List.length INR].
  - replace (Rsqr (0 - (0 + (1 + 0)) / (1 + 1)) + Rsqr (0 - (0 + (0 + 0)) / (1 + 1)))
      with (Rsqr (1 / 2)) by (unfold Rsqr; field).
    replace (Rsqr (1 - (0 + (1 + 0)) / (1 + 1)) + Rsqr (0 - (0 + (0 + 0)) / (1 + 1)))
      with (Rsqr (1 / 2)) by (unfold Rsqr; field).
    rewrite Hhalf. field.
  - replace (Rsqr (2 - (2 + (3 + 0)) / (1 + 1)) + Rsqr (0 - (0 + (0 + 0)) / (1 + 1)))
      with (Rsqr (1 / 2)) by (unfold Rsqr; field).
    replace (Rsqr (3 - (2 + (3 + 0)) / (1 + 1)) + Rsqr (0 - (0 + (0 + 0)) / (1 + 1)))
      with (Rsqr (1 / 2)) by (unfold Rsqr; field).
    rewrite Hhalf. field.
Qed.

(** ** The coordinate table *)

(** A coordinate table that was built has one row per label of the index, in
    the order of the index. *)
Lemma coords_frame_labels (coords : list (list R)) (idx : list string) (rows : list CoordRow) :
  coords_frame coords idx = Ok rows -> map label rows = idx.
Proof.
  revert idx rows.
  induction coords as [|row coords IH]; intros idx rows H.
  - destruct idx; simpl in H; [|discriminate]. now inversion H.
  - simpl in H.
    destruct row as [|x [|y [|z row]]]; try discriminate.
    destruct idx as [|i idx]; try discriminate.
    destruct (coords_frame coords idx) as [rows'|e] eqn:Hrec; try discriminate.
    inversion H; subst. simpl. f_equal. now apply IH.
Qed.

(** The table is built exactly when the array has one pair per label. *)
Lemma coords_frame_shape (coords : list (list R)) (idx : list string) :
  List.length coords = List.length idx ->
  Forall (fun row => List.length row = 2%nat) coords ->
  exists rows, coords_frame coords idx = Ok rows.
Proof.
  revert idx.
  induction coords as [|row coords IH]; intros idx Hlen Hrows.
  - destruct idx; [|discriminate]. now exists [].
  - destruct idx as [|i idx]; [discriminate|].
    inversion Hrows as [|? ? Hrow Hrest]; subst.
    destruct row as [|x [|y [|z row]]]; try discriminate.
    destruct (IH idx) as [rows Hrec]; [now inversion Hlen | assumption |].
    exists (mkCoord i x y :: rows). simpl. now rewrite Hrec.
Qed.

(** ** The merge *)

Lemma merge_skips_unmatched (frame : list CoordRow) (before after : Metadata) (stray : MetaRow) :
  ~ In (meta_Sequence_ID stray) (map label frame) ->
  merge frame (before ++ stray :: after) = merge frame (before ++ after).
Proof.
  unfold merge.
  induction frame as [|c frame IH]; intros Hnot; [reflexivity|].
  cbn [flat_map map] in *.
  rewrite IH by (intros Hin; apply Hnot; now right).
  rewrite !filter_app. cbn [filter].
  destruct (String.eqb_spec (meta_Sequence_ID stray) (label c)) as [Heq|_].
  - exfalso. apply Hnot. left. now symmetry.
  - reflexivity.
Qed.

(** ** Runs *)

Ltac load_inputs HX HM :=
  unfold run_mds_analysis, read_csv_index0, read_csv;
  rewrite HX, HM;
  cbn [read_file bind ret lift print emit try_except_FileNotFoundError app fit_transform
       check_random_state random_state mds_config].

(** Once both files are loaded, the run logs the two progress lines and the
    call into scikit-learn before anything else. *)
Lemma embedding_prefix_logged (L : Libraries) (W : World) (X : RmsdFrame) (metadata : Metadata) :
  matrix_files W INPUT_RMSD_MATRIX = Holds X ->
  table_files W METADATA_FILE = Holds metadata ->
  exists rest, log (run_mds_analysis L W) = embedding_prefix X ++ rest.
Proof.
  intros HX HM. load_inputs HX HM.
  destruct (smacof L (RandomState L 42) mds_config X) as [coords|e].
  - destruct (coords_frame coords (index X)) as [rows|e].
    + cbn [bind lift draw savefig print emit app log fst].
      destruct (draw_figure L _); [destruct (write_figure L _)|];
        cbn [app log fst]; eexists; reflexivity.
    + exists []. reflexivity.
  - exists []. reflexivity.
Qed.

(** A run that loaded both files made the call: it did not fail fast. *)
Lemma loaded_run_does_not_abort_early
  (L : Libraries) (W : World) (X : RmsdFrame) (metadata : Metadata) :
  matrix_files W INPUT_RMSD_MATRIX = Holds X ->
  table_files W METADATA_FILE = Holds metadata ->
  ~ aborts_before_embedding (run_mds_analysis L W).
Proof.
  intros HX HM [_ Hnever].
  destruct (embedding_prefix_logged L W X metadata HX HM) as [rest Hlog].
  apply (Hnever mds_config X). rewrite Hlog.
  unfold embedding_prefix. simpl. tauto.
Qed.

(** C3, as amended.  The script checks nothing about the matrix it loaded:
    whatever its shape and entries, the table goes unchanged into
    [fit_transform], and when that call raises, the run ends there with that
    very exception. *)
Theorem loaded_matrix_is_embedded_unchecked
  (L : Libraries) (W : World) (X : RmsdFrame) (metadata : Metadata) :
  matrix_files W INPUT_RMSD_MATRIX = Holds X ->
  table_files W METADATA_FILE = Holds metadata ->
  (exists rest, log (run_mds_analysis L W) = embedding_prefix X ++ rest)
  /\ (forall e, smacof L (RandomState L 42) mds_config X = Raise e ->
                run_mds_analysis L W = (embedding_prefix X, Raise e)).
Proof.
  intros HX HM. split.
  - now apply (embedding_prefix_logged L W X metadata).
  - intros e He. load_inputs HX HM. rewrite He. reflexivity.
Qed.

Lemma loaded_matrix_is_embedded_unchecked_witness :
  (exists rest, log (run_mds_analysis rejecting (world_of negative_matrix line_labels))
                = embedding_prefix negative_matrix ++ rest)
  /\ run_mds_analysis rejecting (world_of negative_matrix line_labels)
     = (embedding_prefix negative_matrix, Raise ValueError).
Proof.
  destruct (loaded_matrix_is_embedded_unchecked rejecting
              (world_of negative_matrix line_labels) negative_matrix line_labels
              eq_refl eq_refl) as [Hlog Hraise].
  split.
  - exact Hlog.
  - apply Hraise. reflexivity.
Defined.

(** C3, as stated, fails.  [negative_matrix] has a negative entry, yet under
    no library behaviour does the run abort before the embedding: the call
    into scikit-learn is made with it, and the run ends normally when the
    solver returns coordinates. *)
Lemma negative_matrix_reaches_embedding :
  violates_matrix_contract negative_matrix
  /\ (forall L, ~ aborts_before_embedding
                   (run_mds_analysis L (world_of negative_matrix line_labels)))
  /\ outcome (run_mds_analysis line_layout (world_of negative_matrix line_labels)) = Ok tt.
Proof.
  split; [|split].
  - right. right. right.
    exists [fin 2; fin 1; fin 0; fin (-1)], (fin (-1)).
    split; [simpl; tauto|]. split; [simpl; tauto|].
    right. exists (-1). split; [reflexivity | lra].
  - intros L. now apply (loaded_run_does_not_abort_early L _ negative_matrix line_labels).
  - reflexivity.
Qed.

(** C5, as amended.  A metadata row whose identifier is not among the
    labels of the matrix is dropped by the merge without any message: the
    whole run (every printed line, both dispersion values, the data drawn and
    the outcome) is the one obtained from the table without that row. *)
Theorem unmatched_label_is_dropped
  (L : Libraries) (W W' : World) (X : RmsdFrame) (before after : Metadata) (stray : MetaRow) :
  matrix_files W INPUT_RMSD_MATRIX = Holds X ->
  matrix_files W' INPUT_RMSD_MATRIX = Holds X ->
  table_files W METADATA_FILE = Holds (before ++ stray :: after) ->
  table_files W' METADATA_FILE = Holds (before ++ after) ->
  ~ In (meta_Sequence_ID stray) (index X) ->
  run_mds_analysis L W = run_mds_analysis L W'.
Proof.
  intros HX HX' HM HM' Hnot.
  load_inputs HX HM. rewrite HX', HM'.
  cbn [read_file bind ret lift print emit try_except_FileNotFoundError app].
  destruct (smacof L (RandomState L 42) mds_config X) as [coords|e]; [|reflexivity].
  destruct (coords_frame coords (index X)) as [rows|e] eqn:Hrows; [|reflexivity].
  cbn [bind lift].
  rewrite (merge_skips_unmatched rows before after stray).
  - reflexivity.
  - now rewrite (coords_frame_labels _ _ _ Hrows).
Qed.

Lemma unmatched_label_is_dropped_witness :
  run_mds_analysis line_layout (world_of line_matrix (line_labels ++ [stray_label]))
  = run_mds_analysis line_layout (world_of line_matrix line_labels).
Proof.
  rewrite <- (app_nil_r line_labels) at 2.
  apply (unmatched_label_is_dropped line_layout _ _ line_matrix line_labels [] stray_label).
  - reflexivity.
  - reflexivity.
  - reflexivity.
  - reflexivity.
  - simpl. intros [H|[H|[H|[H|[]]]]]; discriminate H.
Defined.

(** C5, as stated, fails.  ["Z9"] labels no row of [line_matrix], and under
    every library behaviour the run with the stray row logs exactly what the
    run without it logs: no warning is issued for the skipped row. *)
Lemma stray_label_leaves_no_trace :
  ~ In (meta_Sequence_ID stray_label) (index line_matrix)
  /\ forall L,
       log (run_mds_analysis L (world_of line_matrix (line_labels ++ [stray_label])))
       = log (run_mds_analysis L (world_of line_matrix line_labels)).
Proof.
  split.
  - simpl. intros [H|[H|[H|[H|[]]]]]; discriminate H.
  - intros L. f_equal.
    assert (HX : forall m, matrix_files (world_of line_matrix m) INPUT_RMSD_MATRIX
                           = Holds line_matrix) by reflexivity.
    assert (HM : forall m, table_files (world_of line_matrix m) METADATA_FILE = Holds m)
      by reflexivity.
    unfold run_mds_analysis, read_csv_index0, read_csv. rewrite !HX, !HM.
    cbn [read_file bind ret lift print emit try_except_FileNotFoundError app fit_transform
         check_random_state random_state mds_config].
    destruct (smacof L (RandomState L 42) mds_config line_matrix) as [coords|e]; [|reflexivity].
    destruct (coords_frame coords (index line_matrix)) as [rows|e] eqn:Hrows; [|reflexivity].
    cbn [bind lift].
    change (merge rows line_labels) with (merge rows (line_labels ++ [])).
    rewrite (merge_skips_unmatched rows line_labels [] stray_label).
    + reflexivity.
    + rewrite (coords_frame_labels _ _ _ Hrows).
      simpl. intros [H|[H|[H|[H|[]]]]]; discriminate H.
Qed.

(** The script passes the integer seed 42, so the solver is handed a
    generator made from that seed and never numpy's process-wide one: the run
    is the same whatever state that generator is in.  What the solver does
    with its generator is scikit-learn's business and is not stated here. *)
Lemma run_ignores_global_generator (L : Libraries) (W : World) (g1 g2 : rng_state) :
  run_mds_analysis L (with_generator W g1) = run_mds_analysis L (with_generator W g2).
Proof.
  reflexivity.
Qed.

(** The seed matters: with [random_state=None] the same call can return
    different coordinates in two processes. *)
Lemma unseeded_embedding_depends_on_generator :
  fit_transform generator_echo (with_generator empty_world [0%Z])
                (mkMDS 2 "precomputed" None 4) line_matrix
  <> fit_transform generator_echo (with_generator empty_world [1%Z])
                   (mkMDS 2 "precomputed" None 4) line_matrix.
Proof.
  unfold fit_transform. cbn. intros H.
  injection H as H. apply eq_IZR in H. discriminate H.
Qed.

(** C9, as amended.  A matrix with fewer than 2 + 2 distinct entities is not
    turned away: when the solver returns one coordinate pair per label, the
    table has one row per label and both dispersion indices are printed. *)
Theorem small_matrix_is_embedded
  (L : Libraries) (W : World) (X : RmsdFrame) (metadata : Metadata)
  (coords : list (list R)) (rows : list CoordRow) :
  matrix_files W INPUT_RMSD_MATRIX = Holds X ->
  table_files W METADATA_FILE = Holds metadata ->
  (entity_count X < n_components mds_config + 2)%nat ->
  smacof L (RandomState L 42) mds_config X = Ok coords ->
  coords_frame coords (index X) = Ok rows ->
  map label rows = index X
  /\ exists rest,
       log (run_mds_analysis L W)
       = embedding_prefix X
         ++ [PrintIndex "Dispersion Index (Extended): "
               (calculate_dispersion (merge rows metadata) "Extended-loop");
             PrintIndex "Dispersion Index (Compact): "
               (calculate_dispersion (merge rows metadata) "Compact-loop")]
         ++ rest.
Proof.
  intros HX HM _ Hfit Hrows. split.
  - exact (coords_frame_labels _ _ _ Hrows).
  - load_inputs HX HM. rewrite Hfit. cbn [bind lift]. rewrite Hrows.
    cbn [bind lift draw savefig print emit app log fst].
    destruct (draw_figure L _); [destruct (write_figure L _)|];
      cbn [app log fst embedding_prefix]; eexists; reflexivity.
Qed.

Lemma small_matrix_is_embedded_witness :
  map label three_rows = index three_matrix
  /\ exists rest,
       log (run_mds_analysis line_layout (world_of three_matrix line_labels))
       = embedding_prefix three_matrix
         ++ [PrintIndex "Dispersion Index (Extended): "
               (calculate_dispersion (merge three_rows line_labels) "Extended-loop");
             PrintIndex "Dispersion Index (Compact): "
               (calculate_dispersion (merge three_rows line_labels) "Compact-loop")]
         ++ rest.
Proof.
  apply (small_matrix_is_embedded line_layout (world_of three_matrix line_labels)
           three_matrix line_labels three_coords three_rows).
  - reflexivity.
  - reflexivity.
  - vm_compute. lia.
  - reflexivity.
  - reflexivity.
Defined.

(** C9, as stated, fails.  [three_matrix] has three entities, fewer than
    2 + 2, yet under no library behaviour does the run abort before the
    embedding: the call into scikit-learn is made with it, and with a solver
    that returns three coordinate pairs the run ends normally. *)
Lemma three_entities_reach_embedding :
  (entity_count three_matrix < n_components mds_config + 2)%nat
  /\ (forall L, ~ aborts_before_embedding
                   (run_mds_analysis L (world_of three_matrix line_labels)))
  /\ outcome (run_mds_analysis line_layout (world_of three_matrix line_labels)) = Ok tt.
Proof.
  split; [vm_compute; lia | split].
  - intros L. now apply (loaded_run_does_not_abort_early L _ three_matrix line_labels).
  - reflexivity.
Qed.

(** C10.  When an input file is missing (the RMSD matrix, or the metadata
    once the matrix has been read), [run_mds_analysis] catches the
    FileNotFoundError: it prints the error line and returns normally; no
    exception leaves it, scikit-learn is not called and no figure is
    written. *)
Theorem missing_input_is_reported (L : Libraries) (W : World) :
  matrix_files W INPUT_RMSD_MATRIX = Missing
  \/ ((exists X, matrix_files W INPUT_RMSD_MATRIX = Holds X)
      /\ table_files W METADATA_FILE = Missing) ->
  run_mds_analysis L W = (not_found_log, Ok tt).
Proof.
  intros [HX | [[X HX] HM]];
    unfold run_mds_analysis, read_csv_index0, read_csv; rewrite HX.
  - reflexivity.
  - rewrite HM. reflexivity.
Qed.

Lemma missing_input_is_reported_witness :
  run_mds_analysis line_layout empty_world = (not_found_log, Ok tt)
  /\ run_mds_analysis line_layout matrix_only_world = (not_found_log, Ok tt).
Proof.
  split.
  - apply (missing_input_is_reported line_layout empty_world).
    left. reflexivity.
  - apply (missing_input_is_reported line_layout matrix_only_world).
    right. split; [exists line_matrix|]; reflexivity.
Defined.

(** * Further properties of the script *)

(** ** The dispersion index as a function of the configuration *)

Lemma dispersion_value (coords_df : DataFrame) (name : string) :
  calculate_dispersion coords_df name
  = Num (mean_distance_to_centroid (members coords_df name)).
Proof.
  destruct (select_lineage coords_df name) as [|r subset] eqn:Hsel.
  - rewrite members_rows. unfold calculate_dispersion. rewrite Hsel. cbn [empty map].
    unfold mean_distance_to_centroid. cbn [map].
    now rewrite arithmetic_mean_nil.
  - apply dispersion_of_selection. rewrite Hsel. discriminate.
Qed.

Lemma Rsum_nonneg (l : list R) : (forall x, In x l -> 0 <= x) -> 0 <= Rsum l.
Proof.
  induction l as [|x l IH]; intros H; simpl; [lra|].
  pose proof (H x (or_introl eq_refl)).
  assert (0 <= Rsum l) by (apply IH; intros y Hy; apply H; now right).
  lra.
Qed.

Lemma arithmetic_mean_nonneg (l : list R) :
  (forall x, In x l -> 0 <= x) -> 0 <= arithmetic_mean l.
Proof.
  intros H. unfold arithmetic_mean.
  destruct l as [|x l]; [rewrite <- arithmetic_mean_nil at 1; unfold arithmetic_mean; lra|].
  apply Rmult_le_pos; [now apply Rsum_nonneg|].
  left. apply Rinv_0_lt_compat. apply lt_0_INR. simpl. lia.
Qed.

Lemma euclidean_distance_nonneg (p q : point) : 0 <= euclidean_distance p q.
Proof. apply sqrt_pos. Qed.

Lemma mean_distance_nonneg (pts : list point) : 0 <= mean_distance_to_centroid pts.
Proof.
  apply arithmetic_mean_nonneg. intros x Hx.
  apply in_map_iff in Hx. destruct Hx as [p [<- _]]. apply euclidean_distance_nonneg.
Qed.

(** X1.  [calculate_dispersion] always returns a number, never NaN, and the
    number is never negative. *)
Theorem calculate_dispersion_nonnegative (coords_df : DataFrame) (lineage_name : string) :
  exists d, calculate_dispersion coords_df lineage_name = Num d /\ 0 <= d.
Proof.
  exists (mean_distance_to_centroid (members coords_df lineage_name)). split.
  - apply dispersion_value.
  - apply mean_distance_nonneg.
Qed.

(** ** The merge with the metadata *)

Lemma filter_unique_match (metadata : Metadata) (id : string) :
  NoDup (map meta_Sequence_ID metadata) ->
  In id (map meta_Sequence_ID metadata) ->
  exists m, filter (fun m => String.eqb (meta_Sequence_ID m) id) metadata = [m]
            /\ meta_Sequence_ID m = id.
Proof.
  induction metadata as [|m0 metadata IH]; intros Hnd Hin; [destruct Hin|].
  cbn [map] in Hnd, Hin. inversion Hnd as [|? ? Hnot Hnd']; subst.
  cbn [filter]. destruct (String.eqb_spec (meta_Sequence_ID m0) id) as [Heq|Hne].
  - exists m0. split; [|assumption]. f_equal.
    clear IH Hin Hnd. induction metadata as [|m1 metadata IH]; [reflexivity|].
    cbn [filter]. destruct (String.eqb_spec (meta_Sequence_ID m1) id) as [Heq1|_].
    + exfalso. apply Hnot. left. congruence.
    + apply IH.
      * intros H. apply Hnot. now right.
      * now inversion Hnd'.
  - destruct Hin as [Hin|Hin]; [contradiction|].
    destruct (IH Hnd' Hin) as [m [Hf Hm]]. now exists m.
Qed.

(** X7.  When the metadata lists every entity of the matrix and no
    identifier twice, the merged table has exactly one row per entity, in
    the order of the matrix, with that entity's coordinates. *)
Theorem merge_one_row_per_entity (coords_df : list CoordRow) (metadata : Metadata) :
  NoDup (map meta_Sequence_ID metadata) ->
  (forall c, In c coords_df -> In (label c) (map meta_Sequence_ID metadata)) ->
  map (fun r => mkCoord (Sequence_ID r) (Dim1 r) (Dim2 r)) (merge coords_df metadata)
  = coords_df.
Proof.
  intros Hnd Hcover. unfold merge.
  induction coords_df as [|c coords_df IH]; [reflexivity|].
  cbn [flat_map]. rewrite map_app.
  rewrite IH by (intros c' Hc'; apply Hcover; now right).
  destruct (filter_unique_match metadata (label c) Hnd (Hcover c (or_introl eq_refl)))
    as [m [-> Hm]].
  cbn [map app Sequence_ID Dim1 Dim2]. rewrite Hm. now destruct c.
Qed.

Lemma merge_one_row_per_entity_witness :
  map (fun r => mkCoord (Sequence_ID r) (Dim1 r) (Dim2 r)) (merge line_rows line_labels)
  = line_rows.
Proof.
  apply (merge_one_row_per_entity line_rows line_labels).
  - repeat constructor; simpl; intuition discriminate.
  - intros c [<-|[<-|[<-|[<-|[]]]]]; simpl; tauto.
Defined.

(** ** Complete and failed runs *)

(** X8.  A run that returns normally did one of two things: it reported a
    missing input file and nothing else, or it went all the way: embedding,
    both dispersion lines, the drawing, the figure saved at [figure_path] and
    the closing line. *)
Theorem normal_run_is_complete (L : Libraries) (W : World) :
  outcome (run_mds_analysis L W) = Ok tt ->
  log (run_mds_analysis L W) = not_found_log
  \/ exists X metadata coords rows,
       matrix_files W INPUT_RMSD_MATRIX = Holds X
       /\ table_files W METADATA_FILE = Holds metadata
       /\ smacof L (RandomState L 42) mds_config X = Ok coords
       /\ coords_frame coords (index X) = Ok rows
       /\ log (run_mds_analysis L W)
          = embedding_prefix X
            ++ [PrintIndex "Dispersion Index (Extended): "
                  (calculate_dispersion (merge rows metadata) "Extended-loop");
                PrintIndex "Dispersion Index (Compact): "
                  (calculate_dispersion (merge rows metadata) "Compact-loop");
                Draw (merge rows metadata);
                Savefig figure_path;
                Print "Plot saved to results/structural_landscape/"].
Proof.
  unfold run_mds_analysis, read_csv_index0, read_csv.
  destruct (matrix_files W INPUT_RMSD_MATRIX) as [|cls|X] eqn:HX.
  - intros _. left. reflexivity.
  - intros H. discriminate H.
  - destruct (table_files W METADATA_FILE) as [|cls|metadata] eqn:HM.
    + intros _. left. reflexivity.
    + intros H. discriminate H.
    + cbn [read_file bind ret lift print emit try_except_FileNotFoundError app fit_transform
           check_random_state random_state mds_config].
      destruct (smacof L (RandomState L 42) mds_config X) as [coords|e] eqn:Hfit;
        [|intros H; discriminate H].
      destruct (coords_frame coords (index X)) as [rows|e] eqn:Hrows;
        [|intros H; discriminate H].
      cbn [bind lift draw savefig print emit app].
      destruct (draw_figure L _); [|intros H; discriminate H].
      destruct (write_figure L _); [|intros H; discriminate H].
      intros _. right. exists X, metadata, coords, rows.
      repeat split; try reflexivity; assumption.
Qed.

Lemma normal_run_is_complete_witness :
  log (run_mds_analysis line_layout (world_of three_matrix line_labels)) = not_found_log
  \/ exists X metadata coords rows,
       matrix_files (world_of three_matrix line_labels) INPUT_RMSD_MATRIX = Holds X
       /\ table_files (world_of three_matrix line_labels) METADATA_FILE = Holds metadata
       /\ smacof line_layout (RandomState line_layout 42) mds_config X = Ok coords
       /\ coords_frame coords (index X) = Ok rows
       /\ log (run_mds_analysis line_layout (world_of three_matrix line_labels))
          = embedding_prefix X
            ++ [PrintIndex "Dispersion Index (Extended): "
                  (calculate_dispersion (merge rows metadata) "Extended-loop");
                PrintIndex "Dispersion Index (Compact): "
                  (calculate_dispersion (merge rows metadata) "Compact-loop");
                Draw (merge rows metadata);
                Savefig figure_path;
                Print "Plot saved to results/structural_landscape/"].
Proof.
  apply (normal_run_is_complete line_layout (world_of three_matrix line_labels)).
  reflexivity.
Defined.

(** X9.  A run that raises leaves no figure behind: the only write it can
    have attempted is the one to [figure_path], and then that write is what
    raised. *)
Theorem failed_run_writes_no_figure (L : Libraries) (W : World) (e : exn) (p : string) :
  outcome (run_mds_analysis L W) = Raise e ->
  In (Savefig p) (log (run_mds_analysis L W)) ->
  p = figure_path /\ write_figure L p = Raise e.
Proof.
  unfold run_mds_analysis, read_csv_index0, read_csv.
  destruct (matrix_files W INPUT_RMSD_MATRIX) as [|cls|X] eqn:HX.
  - intros H. discriminate H.
  - intros _ [H|[]]. discriminate H.
  - destruct (table_files W METADATA_FILE) as [|cls|metadata] eqn:HM.
    + intros H. discriminate H.
    + intros _ [H|[]]. discriminate H.
    + cbn [read_file bind ret lift print emit try_except_FileNotFoundError app fit_transform
           check_random_state random_state mds_config].
      destruct (smacof L (RandomState L 42) mds_config X) as [coords|e1] eqn:Hfit.
      * destruct (coords_frame coords (index X)) as [rows|e2] eqn:Hrows.
        -- cbn [bind lift draw savefig print emit app].
           destruct (draw_figure L _).
           ++ destruct (write_figure L _) eqn:Hw.
              ** intros H. discriminate H.
              ** cbn [outcome log fst snd]. intros He Hin.
                 injection He as <-.
                 simpl in Hin.
                 repeat (destruct Hin as [Hin|Hin]; [try discriminate Hin|]);
                   try contradiction.
                 injection Hin as <-. split; [reflexivity | exact Hw].
           ++ cbn [outcome log fst snd]. intros _ Hin. simpl in Hin.
              repeat (destruct Hin as [Hin|Hin]; [discriminate Hin|]). contradiction.
        -- cbn [bind lift outcome log fst snd]. intros _ Hin. simpl in Hin.
           repeat (destruct Hin as [Hin|Hin]; [discriminate Hin|]). contradiction.
      * cbn [bind lift outcome log fst snd]. intros _ Hin. simpl in Hin.
        repeat (destruct Hin as [Hin|Hin]; [discriminate Hin|]). contradiction.
Qed.

Lemma failed_run_writes_no_figure_witness :
  figure_path = figure_path /\ write_figure unwritable figure_path = Raise FileNotFoundError.
Proof.
  apply (failed_run_writes_no_figure unwritable (world_of three_matrix line_labels)
           FileNotFoundError figure_path).
  - reflexivity.
  - simpl. tauto.
Defined.

(** * architectural_loop_classifier.py: properties *)

Local Open Scope string_scope.

(** ** Strings *)

Lemma append_assoc (a b c : string) : (a ++ b) ++ c = a ++ (b ++ c).
Proof. induction a as [|x a IH]; simpl; [reflexivity | now rewrite IH]. Qed.

Lemma append_nil_r (a : string) : a ++ "" = a.
Proof. induction a as [|x a IH]; simpl; [reflexivity | now rewrite IH]. Qed.

Lemma length_append (a b : string) :
  String.length (a ++ b) = (String.length a + String.length b)%nat.
Proof. induction a as [|x a IH]; simpl; [reflexivity | now rewrite IH]. Qed.

Lemma all_chars_append (test : ascii -> bool) (a b : string) :
  all_chars test (a ++ b) = all_chars test a && all_chars test b.
Proof.
  induction a as [|x a IH]; simpl; [reflexivity|].
  now rewrite IH, andb_assoc.
Qed.

(** ** The search for the first loop *)

Lemma is_C_true (c : ascii) : classifier.is_C c = true -> c = "C"%char.
Proof. apply Ascii.eqb_eq. Qed.

Lemma span_not_C_free (loop rest : string) :
  free_of_C loop ->
  classifier.span_not_C (loop ++ String "C" rest) = (loop, String "C" rest).
Proof.
  unfold free_of_C. induction loop as [|x loop IH]; intros H.
  - reflexivity.
  - cbn [all_chars] in H. apply andb_prop in H. destruct H as [Hx Hl].
    cbn [append classifier.span_not_C].
    apply negb_true_iff in Hx. rewrite Hx. now rewrite IH.
Qed.

Lemma span_not_C_spec (s run rest : string) :
  classifier.span_not_C s = (run, rest) ->
  s = run ++ rest /\ free_of_C run /\ (rest = "" \/ exists t, rest = String "C" t).
Proof.
  unfold free_of_C. revert run rest.
  induction s as [|c s IH]; intros run rest H.
  - injection H as <- <-. repeat split. now left.
  - cbn [classifier.span_not_C] in H.
    destruct (classifier.is_C c) eqn:Hc.
    + injection H as <- <-. repeat split. right. exists s.
      now rewrite (is_C_true c Hc).
    + destruct (classifier.span_not_C s) as [run' rest'] eqn:Hs.
      injection H as <- <-.
      destruct (IH run' rest' eq_refl) as [-> [Hfree Hrest]].
      repeat split; [|assumption].
      cbn [all_chars]. now rewrite Hc, Hfree.
Qed.

Lemma match_here_complete (loop post : string) :
  loop <> "" -> free_of_C loop ->
  classifier.match_here (String "C" (loop ++ String "C" post)) = Some loop.
Proof.
  intros Hne Hfree. cbn [classifier.match_here].
  change (classifier.is_C "C") with true. cbv iota.
  rewrite span_not_C_free by assumption.
  destruct loop; [congruence | reflexivity].
Qed.

Lemma match_here_sound (s group : string) :
  classifier.match_here s = Some group ->
  group <> "" /\ free_of_C group
  /\ exists post, s = String "C" (group ++ String "C" post).
Proof.
  destruct s as [|c s]; [discriminate|].
  cbn [classifier.match_here].
  destruct (classifier.is_C c) eqn:Hc; [|discriminate].
  destruct (classifier.span_not_C s) as [run rest] eqn:Hs.
  destruct run as [|x run]; [discriminate|].
  destruct rest as [|y rest]; [discriminate|].
  intros H. injection H as <-.
  destruct (span_not_C_spec s _ _ Hs) as [-> [Hfree [Hrest|[t Hrest]]]]; [discriminate|].
  split; [discriminate|]. split; [assumption|].
  exists t. rewrite (is_C_true c Hc). now rewrite Hrest.
Qed.

Lemma match_here_not_C (c : ascii) (s : string) :
  classifier.is_C c = false -> classifier.match_here (String c s) = None.
Proof. intros H. cbn [classifier.match_here]. now rewrite H. Qed.

Lemma match_here_double_C (s : string) :
  classifier.match_here (String "C" (String "C" s)) = None.
Proof. reflexivity. Qed.

Lemma re_search_skip (c : ascii) (s : string) :
  classifier.match_here (String c s) = None ->
  classifier.re_search (String c s) = classifier.re_search s.
Proof. intros H. cbn [classifier.re_search]. now rewrite H. Qed.

Lemma re_search_found (s group : string) :
  classifier.match_here s = Some group -> classifier.re_search s = Some group.
Proof. intros H. destruct s; cbn [classifier.re_search]; now rewrite H. Qed.

Lemma re_search_complete (a cs loop post : string) :
  free_of_C a -> only_C cs -> loop <> "" -> free_of_C loop ->
  classifier.re_search (a ++ cs ++ String "C" (loop ++ String "C" post)) = Some loop.
Proof.
  unfold free_of_C, only_C. intros Ha Hcs Hne Hfree.
  induction a as [|x a IHa].
  - cbn [append]. clear Ha.
    induction cs as [|y cs IHcs].
    + cbn [append]. apply re_search_found. now apply match_here_complete.
    + cbn [all_chars] in Hcs. apply andb_prop in Hcs. destruct Hcs as [Hy Hcs].
      rewrite (is_C_true y Hy). cbn [append].
      assert (Hnext : exists t, cs ++ String "C" (loop ++ String "C" post) = String "C" t).
      { destruct cs as [|z cs]; [now eexists|].
        cbn [all_chars] in Hcs. apply andb_prop in Hcs. destruct Hcs as [Hz _].
        rewrite (is_C_true z Hz). now eexists. }
      destruct Hnext as [t Ht]. rewrite re_search_skip.
      * now apply IHcs.
      * rewrite Ht. apply match_here_double_C.
  - cbn [all_chars] in Ha. apply andb_prop in Ha. destruct Ha as [Hx Ha].
    apply negb_true_iff in Hx. cbn [append].
    rewrite re_search_skip by now apply match_here_not_C.
    now apply IHa.
Qed.

Lemma re_search_sound (s loop : string) :
  classifier.re_search s = Some loop ->
  exists a cs post,
    s = a ++ cs ++ String "C" (loop ++ String "C" post)
    /\ free_of_C a /\ only_C cs /\ loop <> "" /\ free_of_C loop.
Proof.
  induction s as [|c s IH]; [discriminate|].
  destruct (classifier.match_here (String c s)) as [group|] eqn:Hm.
  - rewrite (re_search_found _ _ Hm). intros H. injection H as <-.
    destruct (match_here_sound _ _ Hm) as [Hne [Hfree [post Hs]]].
    exists "", "", post. now repeat split.
  - rewrite (re_search_skip _ _ Hm).
    intros H. destruct (IH H) as [a [cs [post [Hs [Ha [Hcs [Hne Hfree]]]]]]].
    destruct (classifier.is_C c) eqn:Hc.
    + (* a 'C' that starts no match: the next character is a 'C' too *)
      destruct a as [|x a].
      * exists "", (String c cs), post. cbn [append] in *. rewrite Hs.
        repeat split; try assumption.
        unfold only_C. cbn [all_chars]. now rewrite Hc.
      * exfalso. rewrite (is_C_true c Hc) in Hm. rewrite Hs in Hm.
        assert (Hnext : exists t, cs ++ String "C" (loop ++ String "C" post) = String "C" t).
        { destruct cs as [|z cs]; [now eexists|].
          unfold only_C in Hcs. cbn [all_chars] in Hcs.
          apply andb_prop in Hcs. destruct Hcs as [Hz _].
          rewrite (is_C_true z Hz). now eexists. }
        destruct Hnext as [t Ht]. rewrite Ht in Hm.
        rewrite match_here_complete in Hm; [discriminate | discriminate | assumption].
    + exists (String c a), cs, post. cbn [append]. rewrite Hs.
      repeat split; try assumption.
      unfold free_of_C. cbn [all_chars]. now rewrite Hc.
Qed.

(** X10.  [get_loop_length] reports the first loop of the sequence: the
    residues between the first 'C' that is not directly followed by another
    'C' and the next 'C' after it.  Before that 'C' the sequence holds only
    residues other than 'C' and then, possibly, a block of 'C's; the reported
    length is the number of residues of the loop. *)
Theorem get_loop_length_first_loop (sequence : string) (n : Z) (loop : string) :
  classifier.get_loop_length sequence = (Some n, Some loop)
  <-> n = Z.of_nat (String.length loop)
      /\ exists a cs post,
           sequence = a ++ cs ++ String "C" (loop ++ String "C" post)
           /\ free_of_C a /\ only_C cs /\ loop <> "" /\ free_of_C loop.
Proof.
  unfold classifier.get_loop_length. split.
  - destruct (classifier.re_search sequence) as [g|] eqn:Hs; [|discriminate].
    intros H. injection H as <- <-. split; [reflexivity|].
    now apply re_search_sound.
  - intros [-> [a [cs [post [-> [Ha [Hcs [Hne Hfree]]]]]]]].
    now rewrite re_search_complete.
Qed.

Lemma re_search_finds_some (pre loop post : string) :
  loop <> "" -> free_of_C loop ->
  classifier.re_search (pre ++ String "C" (loop ++ String "C" post)) <> None.
Proof.
  intros Hne Hfree. induction pre as [|c pre IH].
  - cbn [append]. rewrite (re_search_found _ loop); [discriminate|].
    now apply match_here_complete.
  - cbn [append].
    destruct (classifier.match_here (String c (pre ++ String "C" (loop ++ String "C" post))))
      as [g|] eqn:Hm.
    + rewrite (re_search_found _ _ Hm). discriminate.
    + now rewrite (re_search_skip _ _ Hm).
Qed.

(** X11.  [get_loop_length] returns [(None, None)] exactly when the
    sequence has no two 'C's with a non-empty stretch of other residues
    between them; otherwise it returns a length and a loop. *)
Theorem get_loop_length_none (sequence : string) :
  classifier.get_loop_length sequence = (None, None)
  <-> ~ exists pre loop post,
          sequence = pre ++ String "C" (loop ++ String "C" post)
          /\ loop <> "" /\ free_of_C loop.
Proof.
  unfold classifier.get_loop_length. split.
  - destruct (classifier.re_search sequence) as [g|] eqn:Hs; [discriminate|].
    intros _ [pre [loop [post [-> [Hne Hfree]]]]].
    now apply (re_search_finds_some pre loop post Hne Hfree).
  - intros Hnone.
    destruct (classifier.re_search sequence) as [g|] eqn:Hs; [|reflexivity].
    exfalso. apply Hnone.
    destruct (re_search_sound _ _ Hs) as [a [cs [post [-> [_ [_ [Hne Hfree]]]]]]].
    exists (a ++ cs), g, post. now rewrite append_assoc.
Qed.

Lemma re_search_length (s loop : string) :
  classifier.re_search s = Some loop ->
  (1 <= String.length loop /\ String.length loop + 2 <= String.length s)%nat.
Proof.
  intros H. destruct (re_search_sound _ _ H) as [a [cs [post [-> [_ [_ [Hne _]]]]]]].
  rewrite !length_append. cbn [String.length]. rewrite length_append. cbn [String.length].
  destruct loop; [congruence|]. cbn [String.length]. lia.
Qed.

(** X12.  The test [if length:] of [main] drops no sequence in which a loop
    was found (a found loop never has length 0): the table lists, in input
    order, exactly the sequences in which the pattern occurs. *)
Theorem main_keeps_every_match (seqs : list (string * string)) :
  map classifier.Sequence_ID (classifier.main_loop seqs)
  = map fst (filter (fun p => match classifier.re_search (snd p) with
                              | Some _ => true
                              | None => false
                              end) seqs).
Proof.
  induction seqs as [|[seq_id seq_str] seqs IH]; [reflexivity|].
  cbn [classifier.main_loop filter snd]. unfold classifier.get_loop_length.
  destruct (classifier.re_search seq_str) as [loop|] eqn:Hs.
  - cbn [classifier.truthy].
    destruct (re_search_length _ _ Hs) as [Hpos _].
    destruct (Z.eqb_spec (Z.of_nat (String.length loop)) 0) as [H0|_]; [lia|].
    cbn [map fst classifier.Sequence_ID]. now rewrite IH.
  - cbn [classifier.truthy]. exact IH.
Qed.

Lemma classify_compact (n : Z) :
  classifier.classify_architecture n = "Compact-loop" <-> (9 <= n <= 12)%Z.
Proof.
  unfold classifier.classify_architecture.
  destruct (Z.leb_spec 9 n), (Z.leb_spec n 12), (Z.leb_spec 13 n), (Z.leb_spec n 20);
    cbn [andb]; split; intros Hx; try discriminate Hx; try reflexivity; lia.
Qed.

Lemma classify_extended (n : Z) :
  classifier.classify_architecture n = "Extended-loop" <-> (13 <= n <= 20)%Z.
Proof.
  unfold classifier.classify_architecture.
  destruct (Z.leb_spec 9 n), (Z.leb_spec n 12), (Z.leb_spec 13 n), (Z.leb_spec n 20);
    cbn [andb]; split; intros Hx; try discriminate Hx; try reflexivity; lia.
Qed.

(** X13.  Every row of the classification table is consistent: it carries
    a loop without 'C', its length column is the length of that loop and is
    at least 1, and its lineage is "Compact-loop" exactly for 9 to 12
    residues and "Extended-loop" exactly for 13 to 20. *)
Theorem main_rows_are_consistent (seqs : list (string * string)) (e : classifier.Entry) :
  In e (classifier.main_loop seqs) ->
  exists loop,
    classifier.Loop_Sequence e = Some loop
    /\ free_of_C loop
    /\ classifier.C1_C2_Length e = Z.of_nat (String.length loop)
    /\ (1 <= classifier.C1_C2_Length e)%Z
    /\ (classifier.Lineage e = "Compact-loop" <-> (9 <= classifier.C1_C2_Length e <= 12)%Z)
    /\ (classifier.Lineage e = "Extended-loop" <-> (13 <= classifier.C1_C2_Length e <= 20)%Z).
Proof.
  induction seqs as [|[seq_id seq_str] seqs IH]; [intros []|].
  cbn [classifier.main_loop]. unfold classifier.get_loop_length.
  destruct (classifier.re_search seq_str) as [loop|] eqn:Hs.
  - cbn [classifier.truthy].
    destruct (re_search_length _ _ Hs) as [Hpos _].
    destruct (Z.eqb_spec (Z.of_nat (String.length loop)) 0) as [H0|_]; [lia|].
    intros [<-|Hin]; [|now apply IH].
    exists loop. cbn [classifier.Loop_Sequence classifier.C1_C2_Length classifier.Lineage].
    destruct (re_search_sound _ _ Hs) as [a [cs [post [_ [_ [_ [_ Hfree]]]]]]].
    split; [reflexivity|]. split; [assumption|]. split; [reflexivity|].
    split; [lia|]. split; [apply classify_compact | apply classify_extended].
  - cbn [classifier.truthy]. exact IH.
Qed.

Lemma main_rows_are_consistent_witness :
  exists loop,
    classifier.Loop_Sequence (classifier.mkEntry "Seq1" 9 (Some "123456789") "Compact-loop")
    = Some loop
    /\ free_of_C loop
    /\ 9%Z = Z.of_nat (String.length loop)
    /\ (1 <= 9)%Z
    /\ ("Compact-loop" = "Compact-loop" <-> (9 <= 9 <= 12)%Z)
    /\ ("Compact-loop" = "Extended-loop" <-> (13 <= 9 <= 20)%Z).
Proof.
  apply (main_rows_are_consistent classifier.mock_seqs
           (classifier.mkEntry "Seq1" 9 (Some "123456789") "Compact-loop")).
  left. reflexivity.
Defined.

Local Close Scope string_scope.

(** * linker_cleavage_GLM_analysis.py: properties *)

Local Open Scope string_scope.

Lemma prefix_spec (m s : string) :
  String.prefix m s = true <-> exists post, s = m ++ post.
Proof.
  revert s. induction m as [|x m IH]; intros s.
  - split; [intros _; now exists s | intros _; now destruct s].
  - destruct s as [|y s]; cbn [String.prefix].
    + split; [discriminate | intros [post H]; discriminate H].
    + destruct (ascii_dec x y) as [<-|Hne].
      * rewrite IH. split; intros [post H]; exists post.
        -- cbn [append]. now rewrite H.
        -- cbn [append] in H. now injection H.
      * split; [discriminate|]. intros [post H]. cbn [append] in H.
        injection H as H _. congruence.
Qed.

Lemma contains_spec (m s : string) :
  linker.contains m s = true <-> exists pre post, s = pre ++ m ++ post.
Proof.
  induction s as [|y s IH].
  - cbn [linker.contains]. rewrite orb_false_r, prefix_spec. split.
    + intros [post H]. now exists "", post.
    + intros [pre [post H]]. destruct pre; [now exists post | discriminate H].
  - cbn [linker.contains]. rewrite orb_true_iff, prefix_spec, IH. split.
    + intros [[post H]|[pre [post H]]].
      * now exists "", post.
      * exists (String y pre), post. cbn [append]. now rewrite H.
    + intros [pre [post H]]. destruct pre as [|x pre].
      * left. now exists post.
      * right. cbn [append] in H. injection H as _ H. now exists pre, post.
Qed.

Lemma detect_one_iff (seq : string) :
  linker.detect_cleavage_sites seq = 1%Z
  <-> linker.contains "KR" seq = true \/ linker.contains "RR" seq = true
      \/ linker.contains "RK" seq = true \/ linker.contains "KK" seq = true.
Proof.
  unfold linker.detect_cleavage_sites. cbn [linker.first_hit].
  destruct (linker.contains "KR" seq), (linker.contains "RR" seq),
    (linker.contains "RK" seq), (linker.contains "KK" seq);
    split; intros H; try reflexivity; try discriminate H; try tauto;
    destruct H as [H|[H|[H|H]]]; discriminate H.
Qed.

Lemma detect_one_or_zero (seq : string) :
  linker.detect_cleavage_sites seq = 1%Z \/ linker.detect_cleavage_sites seq = 0%Z.
Proof.
  unfold linker.detect_cleavage_sites. cbn [linker.first_hit].
  destruct (linker.contains "KR" seq), (linker.contains "RR" seq),
    (linker.contains "RK" seq), (linker.contains "KK" seq); tauto.
Qed.

(** X14.  [detect_cleavage_sites] returns 1 exactly when the sequence has
    two adjacent residues that are each K or R, and 0 otherwise. *)
Theorem detect_cleavage_sites_dibasic (seq : string) :
  (linker.detect_cleavage_sites seq = 1%Z
   <-> exists pre x y post,
         seq = pre ++ String x (String y post) /\ basic x /\ basic y)
  /\ (linker.detect_cleavage_sites seq = 1%Z \/ linker.detect_cleavage_sites seq = 0%Z).
Proof.
  split.
  - rewrite detect_one_iff, !contains_spec. unfold basic. split.
    + intros [H|[H|[H|H]]]; destruct H as [pre [post ->]];
        eexists pre, _, _, post; (split; [reflexivity|]); tauto.
    + intros [pre [x [y [post [-> [[->| ->] [->| ->]]]]]]].
      * right. right. right. now exists pre, post.
      * left. now exists pre, post.
      * right. right. left. now exists pre, post.
      * right. left. now exists pre, post.
  - apply detect_one_or_zero.
Qed.

Lemma contains_in_repeat_A (m : string) (k : nat) :
  linker.contains m (repeat_string "A" k) = true -> all_chars (Ascii.eqb "A") m = true.
Proof.
  rewrite contains_spec. intros [pre [post H]].
  assert (Hall : all_chars (Ascii.eqb "A") (repeat_string "A" k) = true).
  { clear H. induction k as [|k IH]; [reflexivity|]. cbn. exact IH. }
  rewrite H, !all_chars_append in Hall.
  apply andb_prop in Hall. destruct Hall as [_ Hall].
  apply andb_prop in Hall. now destruct Hall.
Qed.

Lemma length_repeat_A (k : nat) : String.length (repeat_string "A" k) = k.
Proof. induction k as [|k IH]; [reflexivity|]. cbn. now rewrite IH. Qed.

(** X15.  On the mock data of [run_glm_analysis], whose linkers are runs of
    'A', the feature step gives every row its drawn length and the value 0
    for 'Has_Cleavage': the regression is fitted to a response that is 0 in
    every row. *)
Theorem mock_data_has_no_cleavage (drawn : list nat) :
  linker.feature_engineering (linker.mock_linkers drawn)
  = map (fun k => (Z.of_nat k, 0%Z)) drawn.
Proof.
  unfold linker.feature_engineering, linker.mock_linkers. rewrite map_map.
  apply map_ext. intros k. rewrite length_repeat_A. f_equal.
  destruct (detect_one_or_zero (repeat_string "A" k)) as [H1|H0];
    [|assumption].
  exfalso. apply detect_one_iff in H1.
  destruct H1 as [H|[H|[H|H]]]; apply contains_in_repeat_A in H; discriminate H.
Qed.

(** X16.  A cleavage site is not lost when residues are added before or
    after the linker. *)
Theorem detect_cleavage_sites_extension (before seq after : string) :
  linker.detect_cleavage_sites seq = 1%Z ->
  linker.detect_cleavage_sites (before ++ seq ++ after) = 1%Z.
Proof.
  rewrite !detect_one_iff, !contains_spec.
  intros [H|[H|[H|H]]]; destruct H as [pre [post ->]];
    [left | right; left | right; right; left | right; right; right];
    exists (before ++ pre), (post ++ after); now rewrite !append_assoc.
Qed.

Lemma detect_cleavage_sites_extension_witness :
  linker.detect_cleavage_sites ("GS" ++ "AKRA" ++ "GT") = 1%Z.
Proof.
  apply (detect_cleavage_sites_extension "GS" "AKRA" "GT"). reflexivity.
Defined.

Local Close Scope string_scope.

(** * Structural_Prediction_ESMFold.py: properties *)

Local Open Scope nat_scope.

Lemma count_posts_app (a b : list esmfold.event) :
  count_posts (a ++ b) = count_posts a + count_posts b.
Proof.
  induction a as [|ev a IH]; [reflexivity|].
  destruct ev; cbn; now rewrite ?IH.
Qed.

Lemma total_sleep_app (a b : list esmfold.event) :
  (total_sleep (a ++ b) = total_sleep a + total_sleep b)%Z.
Proof.
  induction a as [|ev a IH]; [reflexivity|].
  destruct ev; cbn [app total_sleep]; rewrite ?IH; lia.
Qed.

(** The retry loop, for any list of attempt numbers. *)
Lemma attempts_spec (net : esmfold.Network) (sequence header : string) (todo : list Z) :
  forall k,
    let '(events, result, k') := esmfold.attempts net k sequence header todo in
    count_posts events = k' - k
    /\ k <= k'
    /\ match result with
       | Some text =>
           exists j, j < List.length todo
                     /\ net (k + j) sequence = esmfold.Response 200 text
                     /\ (forall i, i < j -> is_200 (net (k + i) sequence) = false)
                     /\ k' = k + j + 1
       | None =>
           (forall i, i < List.length todo -> is_200 (net (k + i) sequence) = false)
           /\ k' = k + List.length todo
       end.
Proof.
  induction todo as [|attempt todo IH]; intros k.
  - cbn. split; [lia|]. split; [lia|]. split; [intros i Hi; lia | lia].
  - cbn [esmfold.attempts List.length].
    assert (Hstep :
      is_200 (net k sequence) = false ->
      forall head,
        count_posts head = 1 ->
        let '(events, result, k') := esmfold.attempts net (S k) sequence header todo in
        count_posts (head ++ events) = k' - k
        /\ k <= k'
        /\ match result with
           | Some text =>
               exists j, j < S (List.length todo)
                         /\ net (k + j) sequence = esmfold.Response 200 text
                         /\ (forall i, i < j -> is_200 (net (k + i) sequence) = false)
                         /\ k' = k + j + 1
           | None =>
               (forall i, i < S (List.length todo) -> is_200 (net (k + i) sequence) = false)
               /\ k' = k + S (List.length todo)
           end).
    { intros Hk head Hhead. specialize (IH (S k)).
      destruct (esmfold.attempts net (S k) sequence header todo) as [[events result] k'].
      destruct IH as [Hcount [Hle Hres]].
      split; [rewrite count_posts_app; lia|]. split; [lia|].
      destruct result as [text|].
      - destruct Hres as [j [Hj [Hnet [Hbefore ->]]]].
        exists (S j). replace (k + S j) with (S k + j) by lia.
        split; [lia|]. split; [assumption|]. split; [|lia].
        intros i Hi. destruct i as [|i]; [now rewrite Nat.add_0_r|].
        replace (k + S i) with (S k + i) by lia. apply Hbefore. lia.
      - destruct Hres as [Hall ->]. split; [|lia].
        intros i Hi. destruct i as [|i]; [now rewrite Nat.add_0_r|].
        replace (k + S i) with (S k + i) by lia. apply Hall. lia. }
    destruct (net k sequence) as [status_code text|message] eqn:Hreply.
    + destruct (Z.eqb_spec status_code 200) as [->|Hcode].
      * cbn [count_posts]. split; [lia|]. split; [lia|].
        exists 0. rewrite Nat.add_0_r.
        split; [lia|]. split; [assumption|]. split; [intros i Hi; lia | lia].
      * assert (Hk : is_200 (esmfold.Response status_code text) = false)
          by (cbn; now apply Z.eqb_neq).
        specialize (Hstep Hk
          [esmfold.Post esmfold.API_URL sequence; esmfold.ErrorLine status_code header;
           esmfold.Sleep (esmfold.SLEEP_TIME * (attempt + 1))] eq_refl).
        destruct (esmfold.attempts net (S k) sequence header todo) as [[events result] k'].
        exact Hstep.
    + specialize (Hstep eq_refl
        [esmfold.Post esmfold.API_URL sequence; esmfold.ExceptionLine message;
         esmfold.Sleep esmfold.SLEEP_TIME] eq_refl).
      destruct (esmfold.attempts net (S k) sequence header todo) as [[events result] k'].
      exact Hstep.
Qed.

(** X17.  [predict_structure] makes at most three requests and stops at the
    first response with status 200, whose body it returns; it returns [None]
    only after three requests none of which was answered with status 200. *)
Theorem predict_structure_first_200
  (net : esmfold.Network) (k : nat) (sequence header : string) :
  let '(events, result, k') := esmfold.predict_structure net k sequence header in
  count_posts events = k' - k
  /\ match result with
     | Some text =>
         exists j, j < 3
                   /\ net (k + j) sequence = esmfold.Response 200 text
                   /\ (forall i, i < j -> is_200 (net (k + i) sequence) = false)
                   /\ k' = k + j + 1
     | None =>
         (forall i, i < 3 -> is_200 (net (k + i) sequence) = false) /\ k' = k + 3
     end.
Proof.
  unfold esmfold.predict_structure.
  pose proof (attempts_spec net sequence header (esmfold.range esmfold.MAX_RETRIES) k) as H.
  destruct (esmfold.attempts net k sequence header (esmfold.range esmfold.MAX_RETRIES))
    as [[events result] k'].
  destruct H as [Hcount [_ Hres]]. split; [assumption|]. exact Hres.
Qed.

Ltac case_replies net :=
  repeat match goal with
         | |- context [net ?k ?s] =>
             let c := fresh "code" in
             destruct (net k s) as [c ?|?]; [destruct (c =? 200)%Z|]
         end.

(** X18.  One call of [predict_structure] sleeps at most 12 seconds in all,
    and at least 6 when it gives up. *)
Theorem predict_structure_waits
  (net : esmfold.Network) (k : nat) (sequence header : string) :
  let '(events, result, _) := esmfold.predict_structure net k sequence header in
  (0 <= total_sleep events <= 12)%Z
  /\ match result with
     | Some _ => True
     | None => (6 <= total_sleep events)%Z
     end.
Proof.
  unfold esmfold.predict_structure, esmfold.MAX_RETRIES, esmfold.range.
  cbn [seq map esmfold.attempts].
  case_replies net; unfold esmfold.SLEEP_TIME; cbn; (split; [lia | try exact I; lia]).
Qed.

(** X19.  After a response with a status other than 200 the wait grows by
    two seconds per attempt: three such responses in a row give waits of 2,
    4 and 6 seconds, the last one after the final attempt, and the call
    returns [None]. *)
Theorem predict_structure_backoff
  (net : esmfold.Network) (k : nat) (sequence header : string)
  (c1 c2 c3 : Z) (t1 t2 t3 : string) :
  net k sequence = esmfold.Response c1 t1 -> c1 <> 200%Z ->
  net (S k) sequence = esmfold.Response c2 t2 -> c2 <> 200%Z ->
  net (S (S k)) sequence = esmfold.Response c3 t3 -> c3 <> 200%Z ->
  esmfold.predict_structure net k sequence header
  = ([esmfold.Post esmfold.API_URL sequence; esmfold.ErrorLine c1 header; esmfold.Sleep 2;
      esmfold.Post esmfold.API_URL sequence; esmfold.ErrorLine c2 header; esmfold.Sleep 4;
      esmfold.Post esmfold.API_URL sequence; esmfold.ErrorLine c3 header; esmfold.Sleep 6],
     None, S (S (S k))).
Proof.
  intros H1 Hc1 H2 Hc2 H3 Hc3.
  unfold esmfold.predict_structure, esmfold.MAX_RETRIES, esmfold.range.
  cbn [seq map esmfold.attempts].
  rewrite H1, H2, H3.
  apply Z.eqb_neq in Hc1, Hc2, Hc3. rewrite Hc1, Hc2, Hc3. reflexivity.
Qed.

Lemma predict_structure_backoff_witness :
  esmfold.predict_structure service_down 0 "MKT" "P1"
  = ([esmfold.Post esmfold.API_URL "MKT"; esmfold.ErrorLine 503 "P1"; esmfold.Sleep 2;
      esmfold.Post esmfold.API_URL "MKT"; esmfold.ErrorLine 503 "P1"; esmfold.Sleep 4;
      esmfold.Post esmfold.API_URL "MKT"; esmfold.ErrorLine 503 "P1"; esmfold.Sleep 6],
     None, 3).
Proof.
  apply (predict_structure_backoff service_down 0 "MKT" "P1" 503 503 503
           "Service Unavailable" "Service Unavailable" "Service Unavailable");
    (reflexivity || discriminate).
Defined.

(** The loop of [main] leaves every file it finds alone, the failure log
    apart. *)
Lemma main_loop_keeps_files (net : esmfold.Network) (sequences : list esmfold.SeqRecord)
      (p content : string) :
  p <> esmfold.FAILED_LOG ->
  forall k d i total,
    esmfold.files d p = Some content ->
    let '(_, d', _, _) := esmfold.main_loop net k d i total sequences in
    esmfold.files d' p = Some content.
Proof.
  intros Hlog. induction sequences as [|record rest IH]; intros k d i total Hp.
  - exact Hp.
  - cbn [esmfold.main_loop].
    destruct (esmfold.exists_ d _) eqn:Hex.
    + specialize (IH k d (S i) total Hp).
      destruct (esmfold.main_loop net k d (S i) total rest) as [[[events d'] k'] e].
      exact IH.
    + destruct (esmfold.predict_structure net k (esmfold.seq record) (esmfold.id record))
        as [[requests pdb_content] k1].
      assert (Hother : p <> esmfold.os_path_join esmfold.OUTPUT_DIR
                                (String.append (esmfold.id record) ".pdb")).
      { intros ->. unfold esmfold.exists_ in Hex. now rewrite Hp in Hex. }
      destruct pdb_content as [[|c text]|].
      * destruct (esmfold.openable d esmfold.FAILED_LOG); [|exact Hp].
        match goal with
        | |- context [esmfold.main_loop net k1 ?d1 (S i) total rest] =>
            specialize (IH k1 d1 (S i) total);
            destruct (esmfold.main_loop net k1 d1 (S i) total rest) as [[[events d'] k'] e]
        end.
        apply IH. cbn [esmfold.append_file esmfold.files].
        apply String.eqb_neq in Hlog. now rewrite Hlog.
      * destruct (esmfold.openable d _); [|exact Hp].
        match goal with
        | |- context [esmfold.main_loop net k1 ?d1 (S i) total rest] =>
            specialize (IH k1 d1 (S i) total);
            destruct (esmfold.main_loop net k1 d1 (S i) total rest) as [[[events d'] k'] e]
        end.
        apply IH. cbn [esmfold.write_file esmfold.files].
        apply String.eqb_neq in Hother. now rewrite Hother.
      * destruct (esmfold.openable d esmfold.FAILED_LOG); [|exact Hp].
        match goal with
        | |- context [esmfold.main_loop net k1 ?d1 (S i) total rest] =>
            specialize (IH k1 d1 (S i) total);
            destruct (esmfold.main_loop net k1 d1 (S i) total rest) as [[[events d'] k'] e]
        end.
        apply IH. cbn [esmfold.append_file esmfold.files].
        apply String.eqb_neq in Hlog. now rewrite Hlog.
Qed.

(** X20.  [main] never rewrites a file that exists when it starts, the
    failure log apart: whatever the service answers, such a file has the same
    content at the end. *)
Theorem main_never_overwrites
  (net : esmfold.Network) (d : esmfold.Disk) (sequences : list esmfold.SeqRecord)
  (p content : string) :
  esmfold.files d p = Some content ->
  p <> esmfold.FAILED_LOG ->
  let '(_, d', _, _) := esmfold.main net d sequences in
  esmfold.files d' p = Some content.
Proof.
  intros Hp Hlog. unfold esmfold.main.
  match goal with
  | |- context [esmfold.main_loop net 0 ?d0 0 ?n sequences] =>
      pose proof (main_loop_keeps_files net sequences p content Hlog 0 d0 0 n) as H;
      destruct (esmfold.main_loop net 0 d0 0 n sequences) as [[[events d'] k'] e]
  end.
  apply H. destruct (esmfold.exists_ d esmfold.OUTPUT_DIR); exact Hp.
Qed.

Lemma main_never_overwrites_witness :
  let '(_, d', _, _) := esmfold.main service_down one_model_disk two_records in
  esmfold.files d' "data/pdb_models/P1.pdb" = Some "ATOM"%string.
Proof.
  apply (main_never_overwrites service_down one_model_disk two_records
           "data/pdb_models/P1.pdb" "ATOM").
  - reflexivity.
  - discriminate.
Defined.

(** X21.  A response with status 200 and an empty body counts as a failure:
    for a sequence without a model, [main] makes that one request, writes no
    model, appends the identifier to the failure log and prints the failure
    line, without any retry. *)
Theorem empty_body_counts_as_failure
  (net : esmfold.Network) (k : nat) (d : esmfold.Disk) (i total : nat)
  (record : esmfold.SeqRecord) :
  esmfold.exists_ d (pdb_path (esmfold.id record)) = false ->
  net k (esmfold.seq record) = esmfold.Response 200 "" ->
  esmfold.openable d esmfold.FAILED_LOG = true ->
  esmfold.main_loop net k d i total [record]
  = ([esmfold.ModelingLine (i + 1) total (esmfold.id record);
      esmfold.Post esmfold.API_URL (esmfold.seq record);
      esmfold.FailedLine (esmfold.id record);
      esmfold.Sleep 2],
     esmfold.append_file d esmfold.FAILED_LOG
       (String.append (esmfold.id record) esmfold.newline),
     S k, esmfold.Returned).
Proof.
  intros Hex Hnet Hopen. unfold pdb_path in Hex.
  cbn [esmfold.main_loop]. rewrite Hex.
  unfold esmfold.predict_structure, esmfold.MAX_RETRIES, esmfold.range.
  cbn [seq map esmfold.attempts]. rewrite Hnet. cbn [Z.eqb Pos.eqb].
  rewrite Hopen. reflexivity.
Qed.

Lemma empty_body_counts_as_failure_witness :
  esmfold.main_loop empty_answers 0 one_model_disk 1 2 [esmfold.mkSeqRecord "P2" "MCC"]
  = ([esmfold.ModelingLine 2 2 "P2";
      esmfold.Post esmfold.API_URL "MCC";
      esmfold.FailedLine "P2";
      esmfold.Sleep 2],
     esmfold.append_file one_model_disk esmfold.FAILED_LOG
       (String.append "P2" esmfold.newline),
     1, esmfold.Returned).
Proof.
  apply (empty_body_counts_as_failure empty_answers 0 one_model_disk 1 2
           (esmfold.mkSeqRecord "P2" "MCC")); reflexivity.
Defined.




Local Close Scope nat_scope.

(** * Network_Topology_Analysis.py: properties *)

Local Open Scope nat_scope.

Lemma occurrences_snoc (d x : string) (seen : list string) :
  occurrences d (seen ++ [x]) = occurrences d seen + (if String.eqb x d then 1 else 0).
Proof.
  unfold occurrences. rewrite count_occ_app. cbn [count_occ].
  destruct (string_dec x d) as [->|Hne].
  - now rewrite String.eqb_refl.
  - apply String.eqb_neq in Hne. now rewrite Hne.
Qed.

Lemma find_node_names (d : string) (names : list string) (f : string -> network.Attrs) :
  network.find_node d (map (fun n => (n, f n)) names)
  = if existsb (String.eqb d) names then Some (f d) else None.
Proof.
  induction names as [|n names IH]; [reflexivity|].
  cbn [map network.find_node existsb].
  rewrite (String.eqb_sym d n).
  destruct (String.eqb_spec n d) as [->|_]; [reflexivity | exact IH].
Qed.

Lemma existsb_eqb_In (d : string) (names : list string) :
  existsb (String.eqb d) names = true <-> In d names.
Proof.
  rewrite existsb_exists. split.
  - intros [x [Hx Heq]]. apply String.eqb_eq in Heq. now subst.
  - intros H. exists d. split; [assumption | apply String.eqb_refl].
Qed.

Lemma set_node_names (d : string) (g : network.Attrs -> network.Attrs)
      (names : list string) (f : string -> network.Attrs) :
  network.set_node d g (map (fun n => (n, f n)) names)
  = map (fun n => (n, if String.eqb n d then g (f n) else f n)) names.
Proof.
  unfold network.set_node. rewrite map_map. apply map_ext. intros n. cbn [fst snd].
  now destruct (String.eqb n d).
Qed.

Section Star.

Variables (names seen : list string) (d : string).
Hypothesis Hd : d <> "Pacifastin"%string.
Hypothesis Hcentre : forall n, In n names -> n <> "Pacifastin"%string.

Lemma star_find_node :
  network.find_node d (star_nodes names seen)
  = if existsb (String.eqb d) names
    then Some (accessory_attrs (occurrences d seen)) else None.
Proof.
  unfold star_nodes. cbn [network.find_node].
  apply String.eqb_neq in Hd. rewrite String.eqb_sym, Hd.
  apply (find_node_names d names (fun n => accessory_attrs (occurrences n seen))).
Qed.

Lemma star_joins (n : string) (w : Z) :
  In n names -> network.joins "Pacifastin" d ("Pacifastin"%string, n, w) = String.eqb n d.
Proof.
  intros Hn. unfold network.joins. rewrite String.eqb_refl. cbn [andb].
  apply Hcentre in Hn. apply String.eqb_neq in Hn. rewrite Hn.
  now rewrite andb_false_r, orb_false_r.
Qed.

Lemma star_has_edge :
  existsb (network.joins "Pacifastin" d) (star_edges names seen)
  = existsb (String.eqb d) names.
Proof.
  unfold star_edges.
  assert (H : forall l, (forall n, In n l -> In n names) ->
              existsb (network.joins "Pacifastin" d)
                      (map (fun n => ("Pacifastin"%string, n, Z.of_nat (occurrences n seen))) l)
              = existsb (String.eqb d) l).
  { induction l as [|n l IH]; intros Hl; [reflexivity|].
    cbn [map existsb]. rewrite star_joins by (apply Hl; now left).
    rewrite (String.eqb_sym n d). f_equal. apply IH. intros m Hm. apply Hl. now right. }
  now apply H.
Qed.

(** Counting one more row for [d]. *)
Lemma star_nodes_counted :
  network.set_node d
    (fun old => network.mkAttrs (network.type_ old) (network.size old)
                  (Some (Z.of_nat (occurrences d seen) + 1)%Z))
    (star_nodes names seen)
  = star_nodes names (seen ++ [d]).
Proof.
  unfold star_nodes. cbn [network.set_node map fst snd].
  pose proof Hd as Hd'. apply String.eqb_neq in Hd'. rewrite String.eqb_sym, Hd'. f_equal.
  fold (network.set_node d
          (fun old => network.mkAttrs (network.type_ old) (network.size old)
                        (Some (Z.of_nat (occurrences d seen) + 1)%Z))
          (map (fun n => (n, accessory_attrs (occurrences n seen))) names)).
  rewrite set_node_names. apply map_ext. intros n.
  rewrite occurrences_snoc, (String.eqb_sym d n).
  destruct (String.eqb_spec n d) as [->|_].
  - unfold accessory_attrs. cbn [network.type_ network.size].
    now rewrite Nat2Z.inj_add.
  - now rewrite Nat.add_0_r.
Qed.

Lemma star_edges_counted :
  map (fun e => if network.joins "Pacifastin" d e
                then let '(a, b, w) := e in (a, b, (w + 1)%Z) else e)
      (star_edges names seen)
  = star_edges names (seen ++ [d]).
Proof.
  unfold star_edges. rewrite map_map. apply map_ext_in. intros n Hn.
  rewrite star_joins by assumption.
  rewrite occurrences_snoc, (String.eqb_sym d n).
  destruct (String.eqb n d).
  - now rewrite Nat2Z.inj_add.
  - now rewrite Nat.add_0_r.
Qed.

End Star.

Lemma star_find_centre (names seen : list string) :
  network.find_node "Pacifastin" (star_nodes names seen) = Some core_attrs.
Proof. reflexivity. Qed.

Lemma star_ignores_centre (names seen : list string) :
  (forall n, In n names -> n <> "Pacifastin"%string) ->
  star names (seen ++ ["Pacifastin"%string]) = star names seen.
Proof.
  intros Hcentre. unfold star, star_nodes, star_edges.
  f_equal; [f_equal|]; apply map_ext_in; intros n Hn;
    rewrite occurrences_snoc; pose proof (Hcentre n Hn) as HnP;
    apply not_eq_sym, String.eqb_neq in HnP; rewrite HnP; now rewrite Nat.add_0_r.
Qed.

Lemma star_new_name (names seen : list string) (d : string) :
  occurrences d seen = 0 ->
  star_nodes names seen
    ++ [(d, network.mkAttrs (Some "Accessory"%string) None (Some 0%Z))]
  = star_nodes (names ++ [d]) seen.
Proof.
  intros Hzero. unfold star_nodes. cbn [app]. f_equal.
  rewrite map_app. cbn [map]. now rewrite Hzero.
Qed.

Lemma star_new_edge (names seen : list string) (d : string) :
  ~ In d names -> occurrences d seen = 0 ->
  star_edges names seen ++ [("Pacifastin"%string, d, 1%Z)]
  = star_edges (names ++ [d]) (seen ++ [d]).
Proof.
  intros Hnew Hzero. unfold star_edges. rewrite map_app. cbn [map]. f_equal.
  - apply map_ext_in. intros n Hn. rewrite occurrences_snoc.
    destruct (String.eqb_spec d n) as [<-|_]; [contradiction|].
    now rewrite Nat.add_0_r.
  - now rewrite occurrences_snoc, Hzero, String.eqb_refl.
Qed.

(** One row taken in by a star gives a star again. *)
Lemma add_row_star (names seen : list string) (row : network.Series) (d : string) :
  lists_domains names seen ->
  network.getitem row "Accessory_Domain" = Some d ->
  exists names',
    network.add_row (star names seen) row = network.Returned (star names' (seen ++ [d]))
    /\ lists_domains names' (seen ++ [d]).
Proof.
  intros [Hnodup Hin] Hget.
  assert (Hcentre : forall n, In n names -> n <> "Pacifastin"%string)
    by (intros n Hn; now apply Hin).
  unfold network.add_row. rewrite Hget.
  destruct (String.eqb_spec d "Pacifastin") as [->|Hd]; cbn [negb].
  - (* a row naming the centre changes nothing *)
    exists names. rewrite star_ignores_centre by assumption. split; [reflexivity|].
    split; [assumption|]. intros n. rewrite Hin, occurrences_snoc.
    split; intros [HnP Hocc]; (split; [assumption|]);
      pose proof HnP as HnP'; apply not_eq_sym, String.eqb_neq in HnP';
      rewrite HnP' in *; lia.
  - unfold network.has_node at 1, star at 1. cbn [network.nodes].
    rewrite (star_find_node names seen d Hd).
    destruct (existsb (String.eqb d) names) eqn:Hknown; cbn [negb].
    + (* a domain seen before: its count and its weight go up by one *)
      exists names.
      unfold network.increment_count, star. cbn [network.nodes network.edges].
      rewrite (star_find_node names seen d Hd), Hknown. cbn [network.count accessory_attrs].
      unfold network.increment_weight, network.has_edge. cbn [network.nodes network.edges].
      rewrite (star_has_edge names seen d Hcentre), Hknown.
      rewrite (star_nodes_counted names seen d Hd).
      rewrite (star_edges_counted names seen d Hcentre).
      split; [reflexivity|].
      split; [assumption|]. intros n. rewrite Hin, occurrences_snoc.
      apply existsb_eqb_In, Hin in Hknown.
      destruct (String.eqb_spec d n) as [<-|_]; [|now rewrite Nat.add_0_r].
      split; intros [HnP Hocc]; (split; [assumption|]); lia.
    + (* a new domain: a node with count 1 and an edge of weight 1 *)
      exists (names ++ [d]).
      assert (Hnew : ~ In d names).
      { intros H. apply existsb_eqb_In in H. congruence. }
      assert (Hzero : occurrences d seen = 0).
      { destruct (occurrences d seen) eqn:Hocc; [reflexivity|].
        exfalso. apply Hnew, Hin. split; [assumption | lia]. }
      assert (Hknown' : existsb (String.eqb d) (names ++ [d]) = true).
      { apply existsb_eqb_In, in_or_app. right. now left. }
      assert (Hcentre' : forall n, In n (names ++ [d]) -> n <> "Pacifastin"%string).
      { intros n Hn. apply in_app_or in Hn. destruct Hn as [Hn|[<-|[]]]; auto. }
      unfold network.add_node, network.has_node, star. cbn [network.nodes network.edges].
      rewrite (star_find_node names seen d Hd), Hknown.
      rewrite (star_new_name names seen d Hzero).
      unfold network.increment_count. cbn [network.nodes network.edges].
      rewrite (star_find_node (names ++ [d]) seen d Hd), Hknown'.
      cbn [network.count accessory_attrs].
      unfold network.has_edge. cbn [network.edges].
      rewrite (star_has_edge names seen d Hcentre), Hknown.
      rewrite (star_nodes_counted (names ++ [d]) seen d Hd).
      unfold network.add_edge, network.has_node. cbn [network.nodes network.edges].
      rewrite star_find_centre. cbn [network.nodes network.edges].
      rewrite (star_find_node (names ++ [d]) (seen ++ [d]) d Hd), Hknown'.
      cbn [network.nodes network.edges].
      rewrite (star_new_edge names seen d Hnew Hzero).
      split; [reflexivity|]. split.
      * apply NoDup_app; [assumption | repeat constructor; intros [] | ].
        intros n Hn [<-|[]]. contradiction.
      * intros n. rewrite in_app_iff, Hin, occurrences_snoc. cbn [In].
        destruct (String.eqb_spec d n) as [<-|Hne].
        -- split; [intros _; split; [assumption | lia] | intros _; right; now left].
        -- rewrite Nat.add_0_r. split.
           ++ intros [H|[H|[]]]; [assumption | contradiction].
           ++ intros H. now left.
Qed.

Lemma accessory_domains_cons (row : network.Series) (rows : list network.Series) (d : string) :
  network.getitem row "Accessory_Domain" = Some d ->
  accessory_domains (row :: rows) = d :: accessory_domains rows.
Proof.
  intros Hget. unfold accessory_domains. cbn [flat_map]. now rewrite Hget.
Qed.

(** A table either has the column in every row or has a row without it. *)
Lemma accessory_column_cases (rows : list network.Series) :
  has_accessory_column rows
  \/ exists row, In row rows /\ network.getitem row "Accessory_Domain" = None.
Proof.
  unfold has_accessory_column.
  induction rows as [|row rows [IH|[r [Hr Hnone]]]].
  - left. intros row [].
  - destruct (network.getitem row "Accessory_Domain") as [d|] eqn:Hget.
    + left. intros r [<-|Hr]; [congruence | now apply IH].
    + right. exists row. split; [now left | assumption].
  - right. exists r. split; [now right | assumption].
Qed.

Lemma add_rows_star (rows : list network.Series) :
  forall names seen,
    lists_domains names seen ->
    has_accessory_column rows ->
    exists names',
      network.add_rows (star names seen) rows
      = network.Returned (star names' (seen ++ accessory_domains rows))
      /\ lists_domains names' (seen ++ accessory_domains rows).
Proof.
  induction rows as [|row rows IH]; intros names seen Hnames Hcol.
  - exists names. cbn [accessory_domains flat_map]. rewrite app_nil_r. now split.
  - destruct (network.getitem row "Accessory_Domain") as [d|] eqn:Hget;
      [|exfalso; apply (Hcol row); [now left | assumption]].
    destruct (add_row_star names seen row d Hnames Hget) as [names1 [Hrow Hnames1]].
    destruct (IH names1 (seen ++ [d]) Hnames1) as [names' [Hrows Hnames']].
    { intros r Hr. apply Hcol. now right. }
    exists names'. cbn [network.add_rows]. rewrite Hrow, Hrows.
    rewrite (accessory_domains_cons row rows d Hget).
    rewrite <- app_assoc in *. now split.
Qed.

(** The loop stops with a KeyError at the first row without the column. *)
Lemma add_rows_missing_column (rows : list network.Series) :
  forall names seen,
    lists_domains names seen ->
    (exists row, In row rows /\ network.getitem row "Accessory_Domain" = None) ->
    network.add_rows (star names seen) rows = network.KeyError "Accessory_Domain".
Proof.
  induction rows as [|row rows IH]; intros names seen Hnames [r [Hr Hnone]].
  - destruct Hr.
  - cbn [network.add_rows].
    destruct (network.getitem row "Accessory_Domain") as [d|] eqn:Hget.
    + destruct (add_row_star names seen row d Hnames Hget) as [names1 [Hrow Hnames1]].
      rewrite Hrow. apply (IH names1 (seen ++ [d]) Hnames1).
      exists r. split; [|assumption].
      destruct Hr as [<-|Hr]; [congruence | assumption].
    + unfold network.add_row. now rewrite Hget.
Qed.

Lemma lists_domains_nil : lists_domains [] [].
Proof.
  split; [constructor|]. intros d. cbn. split; [intros [] | intros [_ H]; lia].
Qed.

(** The graph built from a table is the star over its accessory domains. *)
Lemma build_network_star (df_domains : list network.Series) (lineage_name : string) :
  has_accessory_column df_domains ->
  exists names,
    network.build_network df_domains lineage_name
    = network.Returned (star names (accessory_domains df_domains))
    /\ lists_domains names (accessory_domains df_domains).
Proof.
  intros Hcol.
  destruct (add_rows_star df_domains [] [] lists_domains_nil Hcol) as [names [Hrows Hnames]].
  exists names. split; [exact Hrows | exact Hnames].
Qed.

Lemma build_network_missing_column (df_domains : list network.Series) (lineage_name : string) :
  (exists row, In row df_domains /\ network.getitem row "Accessory_Domain" = None) ->
  network.build_network df_domains lineage_name = network.KeyError "Accessory_Domain".
Proof.
  intros Hmiss. exact (add_rows_missing_column df_domains [] [] lists_domains_nil Hmiss).
Qed.

Lemma star_edge_weight (names seen : list string) (d : string) :
  (forall n, In n names -> n <> "Pacifastin"%string) ->
  network.edge_weight (star_edges names seen) "Pacifastin" d
  = if existsb (String.eqb d) names then Some (Z.of_nat (occurrences d seen)) else None.
Proof.
  intros Hcentre. unfold star_edges.
  induction names as [|n names IH]; [reflexivity|].
  cbn [map network.edge_weight existsb].
  rewrite (star_joins (n :: names) d Hcentre n) by now left.
  rewrite (String.eqb_sym d n).
  destruct (String.eqb_spec n d) as [->|_]; [reflexivity|].
  apply IH. intros m Hm. apply Hcentre. now right.
Qed.

Lemma known_iff_occurs (names seen : list string) (d : string) :
  lists_domains names seen -> d <> "Pacifastin"%string ->
  existsb (String.eqb d) names = negb (occurrences d seen =? 0).
Proof.
  intros [_ Hin] Hd.
  destruct (existsb (String.eqb d) names) eqn:Hknown.
  - apply existsb_eqb_In, Hin in Hknown. destruct Hknown as [_ Hocc].
    symmetry. apply negb_true_iff, Nat.eqb_neq. lia.
  - destruct (occurrences d seen) eqn:Hocc; [reflexivity|].
    assert (In d names) as H by (apply Hin; split; [assumption | lia]).
    apply existsb_eqb_In in H. congruence.
Qed.

(** X23.  [build_network] raises a KeyError only for the key
    'Accessory_Domain', and exactly when a row of the table has no such cell:
    the updates of 'count' and 'weight' never raise.  When every row has the
    cell it returns a graph in which every accessory domain of the column
    has a node whose 'count' and an edge to "Pacifastin" whose 'weight' both
    equal the number of rows naming it; a name that no row carries has
    neither node nor edge, and the central node keeps its attributes. *)
Theorem build_network_counts (df_domains : list network.Series) (lineage_name : string) :
  match network.build_network df_domains lineage_name with
  | network.KeyError key =>
      key = "Accessory_Domain"%string
      /\ exists row, In row df_domains /\ network.getitem row "Accessory_Domain" = None
  | network.Returned G =>
      has_accessory_column df_domains
      /\ network.find_node "Pacifastin" (network.nodes G) = Some core_attrs
      /\ forall d, d <> "Pacifastin"%string ->
           network.find_node d (network.nodes G)
           = (if occurrences d (accessory_domains df_domains) =? 0 then None
              else Some (accessory_attrs (occurrences d (accessory_domains df_domains))))
           /\ network.edge_weight (network.edges G) "Pacifastin" d
              = (if occurrences d (accessory_domains df_domains) =? 0 then None
                 else Some (Z.of_nat (occurrences d (accessory_domains df_domains))))
  end.
Proof.
  destruct (accessory_column_cases df_domains) as [Hcol|Hmiss].
  - destruct (build_network_star df_domains lineage_name Hcol) as [names [Hbuild Hnames]].
    rewrite Hbuild. split; [exact Hcol|]. split; [reflexivity|].
    intros d Hd. cbn [star network.nodes network.edges].
    assert (Hcentre : forall n, In n names -> n <> "Pacifastin"%string)
      by (intros n Hn; now apply (proj2 Hnames)).
    rewrite (star_find_node names _ d Hd), (star_edge_weight names _ d Hcentre).
    rewrite (known_iff_occurs names _ d Hnames Hd).
    now destruct (occurrences d (accessory_domains df_domains) =? 0).
  - rewrite (build_network_missing_column df_domains lineage_name Hmiss).
    split; [reflexivity | exact Hmiss].
Qed.

(** X24.  For a table with a cell under 'Accessory_Domain' in every row,
    the graph [build_network] returns is a star around "Pacifastin": every
    edge joins "Pacifastin" to another node of the graph, no node is listed
    twice, and there is exactly one edge per accessory node. *)
Theorem build_network_is_star (df_domains : list network.Series) (lineage_name : string) :
  has_accessory_column df_domains ->
  exists G,
    network.build_network df_domains lineage_name = network.Returned G
    /\ (forall u v w, In (u, v, w) (network.edges G) ->
          u = "Pacifastin"%string /\ v <> "Pacifastin"%string /\ network.has_node G v = true)
    /\ NoDup (map fst (network.nodes G))
    /\ List.length (network.nodes G) = S (List.length (network.edges G)).
Proof.
  intros Hcol.
  destruct (build_network_star df_domains lineage_name Hcol) as [names [Hbuild Hnames]].
  exists (star names (accessory_domains df_domains)). split; [exact Hbuild|].
  assert (Hcentre : forall n, In n names -> n <> "Pacifastin"%string)
    by (intros n Hn; now apply (proj2 Hnames)).
  cbn [star network.nodes network.edges]. split; [|split].
  - intros u v w Hedge. unfold star_edges in Hedge.
    apply in_map_iff in Hedge. destruct Hedge as [n [Heq Hn]].
    injection Heq as <- <- <-.
    split; [reflexivity|]. split; [now apply Hcentre|].
    unfold network.has_node, star. cbn [network.nodes].
    rewrite (star_find_node names _ n (Hcentre n Hn)).
    apply existsb_eqb_In in Hn. now rewrite Hn.
  - unfold star_nodes. cbn [map fst]. rewrite map_map. cbn [fst]. rewrite map_id.
    constructor; [|exact (proj1 Hnames)].
    intros H. now apply (Hcentre _ H).
  - unfold star_nodes, star_edges. cbn [List.length]. now rewrite !length_map.
Qed.

Lemma build_network_is_star_witness :
  has_accessory_column sample_domains
  /\ exists G,
       network.build_network sample_domains "Extended-loop" = network.Returned G
       /\ (forall u v w, In (u, v, w) (network.edges G) ->
             u = "Pacifastin"%string /\ v <> "Pacifastin"%string
             /\ network.has_node G v = true)
       /\ NoDup (map fst (network.nodes G))
       /\ List.length (network.nodes G) = S (List.length (network.edges G)).
Proof.
  assert (Hcol : has_accessory_column sample_domains)
    by (intros row [<-|[<-|[<-|[<-|[]]]]]; discriminate).
  split; [exact Hcol|].
  exact (build_network_is_star sample_domains "Extended-loop" Hcol).
Defined.

Lemma list_sum_head (a : nat) (l : list nat) : list_sum (a :: l) = a + list_sum l.
Proof. reflexivity. Qed.

Lemma total_weight_star (names seen : list string) :
  total_weight (star_edges names seen)
  = Z.of_nat (list_sum (map (fun n => occurrences n seen) names)).
Proof.
  unfold total_weight, star_edges.
  induction names as [|n names IH]; [reflexivity|].
  cbn [map fold_right snd]. rewrite IH, list_sum_head, Nat2Z.inj_add. reflexivity.
Qed.

Lemma indicator_sum (x : string) (names : list string) :
  NoDup names ->
  list_sum (map (fun n => if string_dec x n then 1 else 0) names)
  = if existsb (String.eqb x) names then 1 else 0.
Proof.
  induction 1 as [|n names Hnot Hnodup IH]; [reflexivity|].
  cbn [map existsb]. rewrite list_sum_head, IH.
  destruct (string_dec x n) as [->|Hne].
  - rewrite String.eqb_refl. cbn [orb].
    destruct (existsb (String.eqb n) names) eqn:Hex; [|reflexivity].
    apply existsb_eqb_In in Hex. contradiction.
  - apply String.eqb_neq in Hne. now rewrite Hne.
Qed.

Lemma occurrences_sum (names seen : list string) :
  NoDup names ->
  (forall n, In n names -> n <> "Pacifastin"%string) ->
  (forall x, In x seen -> x <> "Pacifastin"%string -> In x names) ->
  list_sum (map (fun n => occurrences n seen) names)
  = List.length (filter (fun x => negb (String.eqb x "Pacifastin")) seen).
Proof.
  intros Hnodup Hcentre. induction seen as [|x seen IH]; intros Hcover.
  - cbn [filter List.length]. clear.
    induction names as [|n names IHn]; [reflexivity|].
    cbn [map]. now rewrite list_sum_head, IHn.
  - assert (Hsplit : list_sum (map (fun n => occurrences n (x :: seen)) names)
                     = list_sum (map (fun n => if string_dec x n then 1 else 0) names)
                       + list_sum (map (fun n => occurrences n seen) names)).
    { clear. induction names as [|n names IHn]; [reflexivity|].
      cbn [map]. rewrite !list_sum_head, IHn. unfold occurrences. cbn [count_occ].
      destruct (string_dec x n); lia. }
    rewrite Hsplit, IH by (intros y Hy; apply Hcover; now right).
    rewrite indicator_sum by assumption. cbn [filter].
    destruct (String.eqb_spec x "Pacifastin") as [->|Hx]; cbn [negb].
    + destruct (existsb (String.eqb "Pacifastin") names) eqn:Hex; [|reflexivity].
      apply existsb_eqb_In in Hex. now apply Hcentre in Hex.
    + assert (Hknown : existsb (String.eqb x) names = true).
      { apply existsb_eqb_In, Hcover; [now left | assumption]. }
      rewrite Hknown. reflexivity.
Qed.

(** X25.  For a table with a cell under 'Accessory_Domain' in every row, no
    row is lost or counted twice: the weights of the edges of the returned
    graph add up to the number of rows whose domain is not "Pacifastin". *)
Theorem build_network_total_weight (df_domains : list network.Series) (lineage_name : string) :
  has_accessory_column df_domains ->
  exists G,
    network.build_network df_domains lineage_name = network.Returned G
    /\ total_weight (network.edges G)
       = Z.of_nat (List.length
                     (filter (fun x => negb (String.eqb x "Pacifastin"))
                             (accessory_domains df_domains))).
Proof.
  intros Hcol.
  destruct (build_network_star df_domains lineage_name Hcol) as [names [Hbuild [Hnodup Hin]]].
  exists (star names (accessory_domains df_domains)). split; [exact Hbuild|].
  cbn [star network.edges]. rewrite total_weight_star. f_equal.
  apply occurrences_sum.
  - exact Hnodup.
  - intros n Hn. now apply Hin.
  - intros x Hx HxP. apply Hin. split; [assumption|].
    unfold occurrences. now apply (count_occ_In string_dec).
Qed.

Lemma build_network_total_weight_witness :
  has_accessory_column sample_domains
  /\ exists G,
       network.build_network sample_domains "Extended-loop" = network.Returned G
       /\ total_weight (network.edges G) = 3%Z.
Proof.
  assert (Hcol : has_accessory_column sample_domains)
    by (intros row [<-|[<-|[<-|[<-|[]]]]]; discriminate).
  split; [exact Hcol|].
  exact (build_network_total_weight sample_domains "Extended-loop" Hcol).
Defined.

Local Close Scope nat_scope.

(** * Properties of the spread and depth metrics *)

Local Open Scope nat_scope.

Lemma insert_key_permutation (k : phyletic.Key) (l : list phyletic.Key) :
  Permutation (phyletic.insert_key k l) (k :: l).
Proof.
  induction l as [|h rest IH]; [apply Permutation_refl|].
  cbn [phyletic.insert_key]. destruct (phyletic.key_leb k h).
  - apply Permutation_refl.
  - eapply Permutation_trans; [apply perm_skip, IH | apply perm_swap].
Qed.

Lemma sort_keys_permutation (l : list phyletic.Key) :
  Permutation (phyletic.sort_keys l) l.
Proof.
  induction l as [|k l IH]; [apply Permutation_refl|].
  cbn [phyletic.sort_keys fold_right].
  eapply Permutation_trans; [apply insert_key_permutation|].
  apply perm_skip, IH.
Qed.

Lemma notna_In {A : Type} (col : list (option A)) (v : A) :
  In v (phyletic.notna col) <-> In (Some v) col.
Proof.
  induction col as [|[w|] col IH]; cbn [phyletic.notna In].
  - tauto.
  - rewrite IH. split; intros [H|H]; auto; left; congruence.
  - rewrite IH. split; [auto | intros [H|H]; [discriminate | assumption]].
Qed.

Lemma notna_length {A : Type} (col : list (option A)) :
  List.length (phyletic.notna col) <= List.length col.
Proof.
  induction col as [|[w|] col IH]; cbn [phyletic.notna List.length]; lia.
Qed.

Lemma nodup_length {A : Type} (dec : forall x y : A, {x = y} + {x <> y}) (l : list A) :
  List.length (nodup dec l) <= List.length l.
Proof.
  induction l as [|x l IH]; [apply le_n|].
  cbn [nodup]. destruct (in_dec dec x l); cbn [List.length]; lia.
Qed.

Lemma nunique_le_length (col : list (option string)) :
  phyletic.nunique col <= List.length col.
Proof.
  unfold phyletic.nunique.
  eapply Nat.le_trans; [apply nodup_length | apply notna_length].
Qed.

Lemma nodup_constant {A : Type} (dec : forall x y : A, {x = y} + {x <> y})
    (a : A) (l : list A) :
  l <> [] -> (forall x, In x l -> x = a) -> List.length (nodup dec l) = 1.
Proof.
  induction l as [|x l IH]; [congruence|]. intros _ Hall.
  cbn [nodup]. destruct l as [|y l].
  - reflexivity.
  - destruct (in_dec dec x (y :: l)) as [Hin|Hout].
    + apply IH; [discriminate | intros z Hz; apply Hall; now right].
    + exfalso. apply Hout. left.
      rewrite (Hall x) by now left. apply Hall. right. now left.
Qed.

Lemma group_keys_In (df : list phyletic.TaxonRow) (k : phyletic.Key) :
  In k (phyletic.group_keys df)
  <-> exists r, In r df /\ phyletic.key_of r = Some k.
Proof.
  unfold phyletic.group_keys.
  split.
  - intros H.
    apply (Permutation_in _ (sort_keys_permutation _)) in H.
    apply nodup_In, notna_In, in_map_iff in H.
    destruct H as [r [Hk Hr]]. now exists r.
  - intros [r [Hr Hk]].
    apply (Permutation_in _ (Permutation_sym (sort_keys_permutation _))).
    apply nodup_In, notna_In, in_map_iff. now exists r.
Qed.

Lemma group_keys_NoDup (df : list phyletic.TaxonRow) :
  NoDup (phyletic.group_keys df).
Proof.
  unfold phyletic.group_keys.
  eapply Permutation_NoDup; [apply Permutation_sym, sort_keys_permutation|].
  apply NoDup_nodup.
Qed.

Lemma in_group_spec (k : phyletic.Key) (r : phyletic.TaxonRow) :
  phyletic.in_group k r = true <-> phyletic.key_of r = Some k.
Proof.
  unfold phyletic.in_group. destruct (phyletic.key_of r) as [k'|].
  - destruct (phyletic.key_dec k' k) as [->|Hne].
    + tauto.
    + split; [discriminate | intros H; congruence].
  - split; discriminate.
Qed.

Lemma group_data_In (k : phyletic.Key) (df : list phyletic.TaxonRow) (r : phyletic.TaxonRow) :
  In r (phyletic.group_data k df) <-> In r df /\ phyletic.key_of r = Some k.
Proof.
  unfold phyletic.group_data. rewrite filter_In, in_group_spec. tauto.
Qed.

Lemma group_data_nonempty (k : phyletic.Key) (df : list phyletic.TaxonRow) :
  In k (phyletic.group_keys df) -> 1 <= List.length (phyletic.group_data k df).
Proof.
  intros H. apply group_keys_In in H. destruct H as [r Hr].
  apply group_data_In in Hr.
  destruct (phyletic.group_data k df); [destruct Hr | cbn [List.length]; lia].
Qed.

Lemma calculate_metrics_In (df : list phyletic.TaxonRow) (m : phyletic.Metric) :
  In m (phyletic.calculate_metrics df)
  <-> exists k, In k (phyletic.group_keys df)
                /\ m = phyletic.metric_of k (phyletic.group_data k df).
Proof.
  unfold phyletic.calculate_metrics. rewrite in_map_iff.
  split; intros [k [H1 H2]]; exists k; auto.
Qed.

Lemma calculate_metrics_strata (df : list phyletic.TaxonRow) :
  map stratum (phyletic.calculate_metrics df) = phyletic.group_keys df.
Proof.
  unfold phyletic.calculate_metrics. rewrite map_map.
  rewrite <- (map_id (phyletic.group_keys df)) at 2.
  apply map_ext. now intros [l sg].
Qed.

Lemma supergroup_arthropoda (x : option string) :
  phyletic.supergroup_of x = "Arthropoda"%string <-> x = Some "Arthropoda"%string.
Proof.
  unfold phyletic.supergroup_of. destruct x as [p|].
  - destruct (String.eqb_spec p "Arthropoda") as [->|Hne].
    + tauto.
    + split; [discriminate | congruence].
  - split; discriminate.
Qed.

(** X26.  Every row of the returned table stands for at least one sequence,
    and neither its number of species nor its spread [Si] exceeds its number
    of sequences. *)
Theorem calculate_metrics_counts (df : list phyletic.TaxonRow) :
  Forall (fun m => 1 <= phyletic.N_Seq m
                   /\ phyletic.N_Species m <= phyletic.N_Seq m
                   /\ phyletic.Si m <= phyletic.N_Seq m)
         (phyletic.calculate_metrics df).
Proof.
  apply Forall_forall. intros m Hm.
  apply calculate_metrics_In in Hm. destruct Hm as [k [Hk ->]].
  cbn [phyletic.metric_of phyletic.N_Seq phyletic.N_Species phyletic.Si].
  split; [now apply group_data_nonempty|].
  split.
  - eapply Nat.le_trans; [apply nunique_le_length | now rewrite length_map].
  - eapply Nat.le_trans; [apply nunique_le_length | now rewrite length_map].
Qed.

(** X27.  The depth [Di] of a row is 0 exactly when none of its sequences
    names a species; otherwise it is the number of sequences divided by the
    number of species, which is at least 1. *)
Theorem calculate_metrics_depth (df : list phyletic.TaxonRow) :
  Forall (fun m => (phyletic.N_Species m = 0 /\ phyletic.Di m = 0%R)
                   \/ (0 < phyletic.N_Species m
                       /\ (phyletic.Di m * INR (phyletic.N_Species m)
                           = INR (phyletic.N_Seq m))%R
                       /\ (1 <= phyletic.Di m)%R))
         (phyletic.calculate_metrics df).
Proof.
  apply Forall_forall. intros m Hm.
  apply calculate_metrics_In in Hm. destruct Hm as [k [Hk ->]].
  cbn [phyletic.metric_of phyletic.N_Seq phyletic.N_Species phyletic.Di].
  assert (Hle : phyletic.nunique (map phyletic.Species (phyletic.group_data k df))
                <= List.length (phyletic.group_data k df)).
  { eapply Nat.le_trans; [apply nunique_le_length | now rewrite length_map]. }
  destruct (phyletic.nunique (map phyletic.Species (phyletic.group_data k df)))
    as [|n] eqn:Hn.
  - left. now cbn [Nat.ltb Nat.leb].
  - right. change (0 <? S n) with true. cbv iota.
    assert (Hpos : (0 < INR (S n))%R) by (apply lt_0_INR; lia).
    split; [lia|]. split.
    + field. lra.
    + apply le_INR in Hle.
      apply Rmult_le_reg_r with (r := INR (S n)); [assumption|].
      unfold Rdiv. rewrite Rmult_assoc, Rinv_l by lra. lra.
Qed.

(** X28.  A row of the 'Arthropoda' supergroup always has spread [Si] = 1:
    every sequence of that group has the phylum 'Arthropoda'. *)
Theorem arthropoda_spread_is_one (df : list phyletic.TaxonRow) (m : phyletic.Metric) :
  In m (phyletic.calculate_metrics df) ->
  phyletic.m_Supergroup m = "Arthropoda"%string ->
  phyletic.Si m = 1.
Proof.
  intros Hm Hsg.
  apply calculate_metrics_In in Hm. destruct Hm as [[l sg] [Hk ->]].
  cbn [phyletic.metric_of phyletic.m_Supergroup phyletic.Si snd] in *. subst sg.
  unfold phyletic.nunique.
  apply nodup_constant with (a := "Arthropoda"%string).
  - pose proof (group_data_nonempty _ _ Hk) as Hlen.
    destruct (phyletic.group_data (l, "Arthropoda"%string) df) as [|r g] eqn:Hg;
      [cbn [List.length] in Hlen; lia|].
    assert (Hr : In r (phyletic.group_data (l, "Arthropoda"%string) df))
      by (rewrite Hg; now left).
    apply group_data_In in Hr. destruct Hr as [_ Hr].
    unfold phyletic.key_of in Hr.
    destruct (phyletic.Lineage r); [|discriminate].
    injection Hr as _ Hp. apply supergroup_arthropoda in Hp.
    cbn [map phyletic.notna]. rewrite Hp. discriminate.
  - intros x Hx. apply notna_In, in_map_iff in Hx.
    destruct Hx as [r [Hp Hr]].
    apply group_data_In in Hr. destruct Hr as [_ Hr].
    unfold phyletic.key_of in Hr.
    destruct (phyletic.Lineage r); [|discriminate].
    injection Hr as _ Hs. apply supergroup_arthropoda in Hs. congruence.
Qed.

Lemma arthropoda_spread_is_one_witness :
  In (phyletic.mkMetric "Compact-loop" "Arthropoda" 1 2 2 1)
     (phyletic.calculate_metrics sample_taxa)
  /\ phyletic.Si (phyletic.mkMetric "Compact-loop" "Arthropoda" 1 2 2 1) = 1.
Proof.
  assert (H : In (phyletic.mkMetric "Compact-loop" "Arthropoda" 1 2 2 1)
                 (phyletic.calculate_metrics sample_taxa)).
  { left. unfold phyletic.metric_of. cbn. f_equal. lra. }
  split; [exact H|].
  exact (arthropoda_spread_is_one sample_taxa _ H eq_refl).
Defined.

Lemma group_indicator_sum (r : phyletic.TaxonRow) (keys : list phyletic.Key) :
  NoDup keys ->
  list_sum (map (fun k => if phyletic.in_group k r then 1 else 0) keys)
  = match phyletic.key_of r with
    | Some k => if in_dec phyletic.key_dec k keys then 1 else 0
    | None => 0
    end.
Proof.
  unfold phyletic.in_group.
  induction 1 as [|k keys Hnot Hnodup IH].
  - now destruct (phyletic.key_of r).
  - cbn [map]. rewrite list_sum_head, IH.
    destruct (phyletic.key_of r) as [k0|]; [|reflexivity].
    destruct (phyletic.key_dec k0 k) as [->|Hne].
    + destruct (in_dec phyletic.key_dec k keys) as [Hin|_]; [contradiction|].
      destruct (in_dec phyletic.key_dec k (k :: keys)) as [_|Hout];
        [reflexivity | exfalso; apply Hout; now left].
    + destruct (in_dec phyletic.key_dec k0 keys) as [Hin|Hout];
        destruct (in_dec phyletic.key_dec k0 (k :: keys)) as [Hin'|Hout'];
        try reflexivity.
      * exfalso. apply Hout'. now right.
      * destruct Hin' as [Heq|Hin']; [congruence | contradiction].
Qed.

Lemma group_sizes_sum (keys : list phyletic.Key) (df : list phyletic.TaxonRow) :
  NoDup keys ->
  (forall r k, In r df -> phyletic.key_of r = Some k -> In k keys) ->
  list_sum (map (fun k => List.length (phyletic.group_data k df)) keys)
  = List.length (with_lineage df).
Proof.
  intros Hnodup. induction df as [|r df IH]; intros Hcover.
  - cbn [with_lineage filter List.length]. clear.
    induction keys as [|k keys IHk]; [reflexivity|].
    cbn [map]. now rewrite list_sum_head, IHk.
  - assert (Hsplit :
      list_sum (map (fun k => List.length (phyletic.group_data k (r :: df))) keys)
      = list_sum (map (fun k => if phyletic.in_group k r then 1 else 0) keys)
        + list_sum (map (fun k => List.length (phyletic.group_data k df)) keys)).
    { clear. induction keys as [|k keys IHk]; [reflexivity|].
      cbn [map]. rewrite !list_sum_head, IHk.
      unfold phyletic.group_data. cbn [filter].
      destruct (phyletic.in_group k r); cbn [List.length]; lia. }
    rewrite Hsplit, IH by (intros r' k Hr'; apply Hcover; now right).
    rewrite group_indicator_sum by assumption.
    pose proof (Hcover r) as Hr. unfold phyletic.key_of in *.
    unfold with_lineage. cbn [filter].
    destruct (phyletic.Lineage r) as [l|]; [|reflexivity].
    destruct (in_dec phyletic.key_dec _ keys) as [_|Hout]; [reflexivity|].
    exfalso. apply Hout. apply Hr; [now left | reflexivity].
Qed.

(** X29.  The sequence counts of the returned rows add up to the number of
    table rows that carry a lineage: each such sequence is counted in exactly
    one row, and a sequence without a lineage in none. *)
Theorem calculate_metrics_partition (df : list phyletic.TaxonRow) :
  list_sum (map phyletic.N_Seq (phyletic.calculate_metrics df))
  = List.length (with_lineage df).
Proof.
  unfold phyletic.calculate_metrics. rewrite map_map.
  cbn [phyletic.metric_of phyletic.N_Seq].
  apply group_sizes_sum; [apply group_keys_NoDup|].
  intros r k Hr Hk. apply group_keys_In. now exists r.
Qed.

(** X30.  The returned table has one row for each pair of a lineage and a
    supergroup that occurs in the input, and no two rows for the same
    pair. *)
Theorem calculate_metrics_one_row_per_stratum (df : list phyletic.TaxonRow) :
  NoDup (map stratum (phyletic.calculate_metrics df))
  /\ forall lineage sg,
       In (lineage, sg) (map stratum (phyletic.calculate_metrics df))
       <-> exists r, In r df
                     /\ phyletic.Lineage r = Some lineage
                     /\ phyletic.supergroup_of (phyletic.Phylum r) = sg.
Proof.
  rewrite calculate_metrics_strata. split; [apply group_keys_NoDup|].
  intros lineage sg. rewrite group_keys_In.
  split; intros [r [Hr Hk]]; exists r; (split; [assumption|]).
  - unfold phyletic.key_of in Hk.
    destruct (phyletic.Lineage r); [|discriminate].
    injection Hk as -> ->. now split.
  - destruct Hk as [Hl Hs]. unfold phyletic.key_of. now rewrite Hl, Hs.
Qed.

Local Close Scope nat_scope.
